(** * gif_to_spritesheet: a shallow embedding and its verified properties

    The program under study is [gif_to_spritesheet.py]: it opens an animated
    GIF with Pillow, counts its frames, lays them out on a near-square grid,
    pastes every frame on a transparent RGBA canvas and saves the canvas as a
    PNG; a directory driver repeats this for every [.gif] file.

    Python integers are unbounded and never negative here, so they are [nat].
    [math.sqrt] and [/] are computed by Python on IEEE doubles; both are exact
    enough for [math.ceil] to return the exact integer ceiling for every frame
    count below 2^52, and the embedding uses that exact-arithmetic meaning.
    Pillow and the [os] module are not part of the repository: the parts of
    them the program calls are modelled below, each next to the sentence of
    its documentation it follows. *)

From Stdlib Require Import Ascii.
From stdpp Require Import base option list gmap sets strings pretty.

(** ** Exceptions *)

(** The classes of the exceptions the program can meet.  All of them derive
    from Python's [Exception], which is what [process_directory] catches. *)
Inductive exn_class :=
  | EOFError
  | ZeroDivisionError
  | FileNotFoundError
  | FileExistsError
  | NotADirectoryError
  | IsADirectoryError
  | UnidentifiedImageError.

(** An exception object: its class and the text [str(e)] gives. *)
Record exn := Exn { exn_type : exn_class; exn_str : string }.

#[global] Instance exn_class_eq_dec : EqDecision exn_class.
Proof. solve_decision. Defined.

#[global] Instance exn_eq_dec : EqDecision exn.
Proof. solve_decision. Defined.

(** What running a piece of code gives: a value, or a raised exception. *)
Inductive outcome (A : Type) :=
  | Ok (a : A)
  | Raise (e : exn).
Arguments Ok {A} a.
Arguments Raise {A} e.

Definition is_Ok {A} (o : outcome A) : bool :=
  match o with Ok _ => true | Raise _ => false end.

(** ** Raster images (Pillow's [Image] in mode RGBA) *)

(** An RGBA pixel, as the 4-tuple Pillow uses. *)
Definition pixel : Type := N * N * N * N.

Definition alpha (p : pixel) : N := snd p.

(** [(0, 0, 0, 0)], the colour the canvas is created with. *)
Definition transparent : pixel := (0, 0, 0, 0)%N.

(** Pillow keeps an image as an array of rows ([im->image[y][x]]). *)
Record Image := mkImage {
  im_size : nat * nat;            (* (width, height) *)
  im_rows : list (list pixel)     (* im_rows[y][x] *)
}.

#[global] Instance Image_eq_dec : EqDecision Image.
Proof. solve_decision. Defined.

Definition im_width (im : Image) : nat := fst (im_size im).
Definition im_height (im : Image) : nat := snd (im_size im).

(** The row array agrees with the declared size. *)
Definition im_wf (im : Image) : Prop :=
  length (im_rows im) = im_height im ∧
  Forall (λ row, length row = im_width im) (im_rows im).

(** [im.getpixel((x, y))]; [None] stands for the [IndexError] out of range. *)
Definition getpixel (im : Image) (xy : nat * nat) : option pixel :=
  im_rows im !! snd xy ≫= λ row, row !! fst xy.

(** [Image.new('RGBA', size, color)]: every pixel is [color]. *)
Definition Image_new (size : nat * nat) (color : pixel) : Image :=
  mkImage size (replicate (snd size) (replicate (fst size) color)).

(** [dst.paste(src, (x, y))] with a 2-tuple box and no mask: the region of
    the size of [src] whose upper left corner is [(x, y)] is overwritten with
    the pixels of [src]; what falls outside [dst] is clipped.  [dst] is
    mutated in place; the embedding returns the new value of [dst]. *)
Definition paste (dst src : Image) (xy : nat * nat) : Image :=
  let '(x, y) := xy in
  mkImage (im_size dst)
    (imap (λ py row,
       imap (λ px old,
         if bool_decide (x ≤ px < x + im_width src ∧ y ≤ py < y + im_height src)
         then default old (getpixel src (px - x, py - y))
         else old) row)
       (im_rows dst)).

(** ** The opened animation (Pillow's [GifImageFile]) *)

(** An opened image file: its size, its frames as [convert('RGBA')]
    materialises them, and the frame cursor ([tell()]). *)
Record GifImageFile := mkGif {
  gif_size : nat * nat;
  gif_frames : list Image;
  gif_tell : nat
}.

Definition raise_EOFError {A} : outcome A :=
  Raise (Exn EOFError "attempt to seek outside sequence").

(** [gif.seek(frame)]: moves the cursor, or raises [EOFError] when [frame]
    is past the last frame. *)
Definition seek (gif : GifImageFile) (frame : nat) : outcome GifImageFile :=
  if bool_decide (frame < length (gif_frames gif))
  then Ok (mkGif (gif_size gif) (gif_frames gif) frame)
  else raise_EOFError.

(** [gif.convert('RGBA')]: the frame under the cursor as an RGBA image.
    [seek] keeps the cursor on a frame, so the second branch is only there
    to make the function total on the record. *)
Definition convert_RGBA (gif : GifImageFile) : outcome Image :=
  match gif_frames gif !! gif_tell gif with
  | Some frame_img => Ok frame_img
  | None => raise_EOFError
  end.

(** ** Frame counting (lines 34-40)

<<
    frames = 0
    try:
        while True:
            gif.seek(frames)
            frames += 1
    except EOFError:
        pass
>>
    The loop has no bound of its own, so the embedding takes fuel: [None]
    means the fuel ran out before [seek] raised.  Only [EOFError] is caught;
    any other exception leaves the function. *)
Fixpoint count_frames (fuel : nat) (gif : GifImageFile) (frames : nat)
  : option (outcome (GifImageFile * nat)) :=
  match fuel with
  | 0 => None
  | S fuel' =>
      match seek gif frames with
      | Ok gif' => count_frames fuel' gif' (frames + 1)
      | Raise e =>
          Some (if decide (exn_type e = EOFError) then Ok (gif, frames) else Raise e)
      end
  end.

(** ** Grid layout (lines 44-45) *)

(** [math.ceil(math.sqrt(n))]. *)
Definition math_ceil_sqrt (n : nat) : nat :=
  let s := Nat.sqrt n in
  if s * s =? n then s else S s.

Definition raise_ZeroDivisionError {A} (msg : string) : outcome A :=
  Raise (Exn ZeroDivisionError msg).

(** [math.ceil(a / b)]: true division raises [ZeroDivisionError] on a zero
    divisor, before [math.ceil] is called. *)
Definition math_ceil_div (a b : nat) : outcome nat :=
  if b =? 0 then raise_ZeroDivisionError "division by zero"
  else Ok (a / b + (if a mod b =? 0 then 0 else 1)).

(** <<
    cols = math.ceil(math.sqrt(frames))
    rows = math.ceil(frames / cols)
>> *)
Definition grid_layout (frames : nat) : outcome (nat * nat) :=
  let cols := math_ceil_sqrt frames in
  match math_ceil_div frames cols with
  | Ok rows => Ok (cols, rows)
  | Raise e => Raise e
  end.

(** ** Compositing (lines 48-59) *)

(** [a % b] and [a // b] on integers raise on a zero divisor. *)
Definition py_divmod (a b : nat) : outcome (nat * nat) :=
  if b =? 0 then raise_ZeroDivisionError "integer division or modulo by zero"
  else Ok (a `div` b, a `mod` b).

(** One iteration of the body of [for frame in range(frames)]:
<<
    gif.seek(frame)
    frame_img = gif.convert('RGBA')
    x = (frame % cols) * width
    y = (frame // cols) * height
    spritesheet.paste(frame_img, (x, y))
>> *)
Definition paste_frame (width height cols : nat)
    (st : GifImageFile * Image) (frame : nat) : outcome (GifImageFile * Image) :=
  let '(gif, spritesheet) := st in
  match seek gif frame with
  | Raise e => Raise e
  | Ok gif =>
      match convert_RGBA gif with
      | Raise e => Raise e
      | Ok frame_img =>
          match py_divmod frame cols with
          | Raise e => Raise e
          | Ok (q, r) =>
              let x := r * width in
              let y := q * height in
              Ok (gif, paste spritesheet frame_img (x, y))
          end
      end
  end.

(** The [for] loop over the frame indices. *)
Fixpoint paste_frames (width height cols : nat)
    (st : GifImageFile * Image) (range : list nat) : outcome (GifImageFile * Image) :=
  match range with
  | [] => Ok st
  | frame :: range' =>
      match paste_frame width height cols st frame with
      | Ok st' => paste_frames width height cols st' range'
      | Raise e => Raise e
      end
  end.

(** Lines 31-59 of [convert_gif_to_spritesheet]: from the opened file to the
    finished canvas. *)
Definition build_spritesheet (fuel : nat) (gif : GifImageFile)
  : option (outcome Image) :=
  let '(width, height) := gif_size gif in
  match count_frames fuel gif 0 with
  | None => None
  | Some (Raise e) => Some (Raise e)
  | Some (Ok (gif, frames)) =>
      Some
        match grid_layout frames with
        | Raise e => Raise e
        | Ok (cols, rows) =>
            let spritesheet :=
              Image_new (width * cols, height * rows) transparent in
            match paste_frames width height cols (gif, spritesheet) (seq 0 frames) with
            | Raise e => Raise e
            | Ok (_, spritesheet) => Ok spritesheet
            end
        end
  end.

(** ** Strings and POSIX paths ([str] methods and [posixpath]) *)

Module Str.

(** [s[n:]] and [s[:n]]. *)
Fixpoint drop (n : nat) (s : string) : string :=
  match n, s with
  | S n', String _ s' => drop n' s'
  | _, _ => s
  end.

Fixpoint take (n : nat) (s : string) : string :=
  match n, s with
  | S n', String a s' => String a (take n' s')
  | _, _ => EmptyString
  end.

(** [s.rfind(c) + 1]: one past the last occurrence of [c], [0] when
    there is none ([rfind] gives [-1] then). *)
Fixpoint rfind1 (c : ascii) (s : string) : nat :=
  match s with
  | EmptyString => 0
  | String a s' =>
      match rfind1 c s' with
      | 0 => if decide (a = c) then 1 else 0
      | S i => S (S i)
      end
  end.

(** [s == c * len(s)]. *)
Fixpoint all_char (c : ascii) (s : string) : bool :=
  match s with
  | EmptyString => true
  | String a s' => bool_decide (a = c) && all_char c s'
  end.

(** [s.rstrip(c)]. *)
Fixpoint rstrip (c : ascii) (s : string) : string :=
  match s with
  | EmptyString => EmptyString
  | String a s' =>
      match rstrip c s' with
      | EmptyString => if decide (a = c) then EmptyString else String a EmptyString
      | r => String a r
      end
  end.

Definition startswith (s pre : string) : bool :=
  bool_decide (take (String.length pre) s = pre).

Definition endswith (s suf : string) : bool :=
  bool_decide (String.length suf ≤ String.length s ∧
               drop (String.length s - String.length suf) s = suf).

(** [c.lower()] on an ASCII letter. *)
Definition lower_ascii (c : ascii) : ascii :=
  let n := Ascii.nat_of_ascii c in
  if bool_decide (65 ≤ n ≤ 90) then Ascii.ascii_of_nat (n + 32) else c.

Fixpoint lower (s : string) : string :=
  match s with
  | EmptyString => EmptyString
  | String a s' => String (lower_ascii a) (lower s')
  end.

Arguments rfind1 c%_char s.
Arguments all_char c%_char s.
Arguments rstrip c%_char s.

End Str.

(** <<
    def basename(p):
        i = p.rfind('/') + 1
        return p[i:]
>> *)
Definition os_path_basename (p : string) : string :=
  let i := Str.rfind1 "/" p in
  Str.drop i p.

(** <<
    def dirname(p):
        i = p.rfind('/') + 1
        head = p[:i]
        if head and head != '/'*len(head):
            head = head.rstrip('/')
        return head
>> *)
Definition os_path_dirname (p : string) : string :=
  let i := Str.rfind1 "/" p in
  let head := Str.take i p in
  if negb (bool_decide (head = EmptyString)) && negb (Str.all_char "/" head)
  then Str.rstrip "/" head
  else head.

(** [os.path.splitext(p)]: the extension starts at the last dot of the last
    component, unless that component has only dots before it.
<<
    sepIndex = p.rfind('/')
    dotIndex = p.rfind('.')
    if dotIndex > sepIndex:
        filenameIndex = sepIndex + 1
        while filenameIndex < dotIndex:
            if p[filenameIndex:filenameIndex+1] != '.':
                return p[:dotIndex], p[dotIndex:]
            filenameIndex += 1
    return p, p[:0]
>> *)
Definition os_path_splitext (p : string) : string * string :=
  let sep1 := Str.rfind1 "/" p in
  let dot1 := Str.rfind1 "." p in
  if bool_decide (sep1 < dot1) &&
     negb (Str.all_char "." (Str.take (dot1 - 1 - sep1) (Str.drop sep1 p)))
  then (Str.take (dot1 - 1) p, Str.drop (dot1 - 1) p)
  else (p, EmptyString).

(** [os.path.join(a, b)]:
<<
    if b.startswith('/'):   path = b
    elif not path or path.endswith('/'):   path += b
    else:   path += '/' + b
>> *)
Definition os_path_join (a b : string) : string :=
  if Str.startswith b "/" then b
  else if bool_decide (a = EmptyString) || Str.endswith a "/" then a +:+ b
  else a +:+ "/" +:+ b.

(** ** The world: file system and standard output *)

(** What a file holds, as far as this program can tell: an image a decoder
    accepts (its size, frame 0 and the frames after it), or anything else.
    An image file always has frame 0.  The PNG encoder is a function of the
    canvas, so a PNG is identified with the single image written into it. *)
Inductive file :=
  | ImageFile (size : nat * nat) (first : Image) (more : list Image)
  | OtherFile.

#[global] Instance file_eq_dec : EqDecision file.
Proof. solve_decision. Defined.

Record world := mkWorld {
  w_files : gmap string file;    (* regular files, by path *)
  w_dirs : gset string;          (* directories, by path without trailing slash *)
  w_stdout : list string         (* the lines printed so far *)
}.

(** The name under which a directory path is looked up: trailing slashes do
    not matter, except in a path made of slashes only. *)
Definition dir_key (p : string) : string :=
  if Str.all_char "/" p then p else Str.rstrip "/" p.

Definition is_dir (w : world) (p : string) : bool :=
  negb (bool_decide (p = EmptyString)) && bool_decide (dir_key p ∈ w_dirs w).

(** The regular file a path names; the empty path names nothing. *)
Definition read_file (w : world) (p : string) : option file :=
  if decide (p = EmptyString) then None else w_files w !! p.

Definition is_file (w : world) (p : string) : bool :=
  bool_decide (is_Some (read_file w p)).

(** [os.path.exists(p)]. *)
Definition os_path_exists (w : world) (p : string) : bool :=
  is_dir w p || is_file w p.

(** The proper ancestors of a path, nearest first ([fuel] bounds the walk by
    the length of the path). *)
Fixpoint parents (fuel : nat) (p : string) : list string :=
  match fuel with
  | 0 => []
  | S fuel' =>
      let d := os_path_dirname p in
      if decide (d = EmptyString ∨ d = p) then [] else d :: parents fuel' d
  end.

Definition quoted (p : string) : string := "'" +:+ p +:+ "'".

(** [os.makedirs(p)]: creates the directory [p] and every missing ancestor.
    It raises [FileNotFoundError] on the empty path, [FileExistsError] when
    [p] exists already and [NotADirectoryError] when a regular file is in the
    way. *)
Definition os_makedirs (p : string) (w : world) : outcome unit * world :=
  if decide (p = EmptyString) then
    (Raise (Exn FileNotFoundError
              ("[Errno 2] No such file or directory: " +:+ quoted p)), w)
  else if os_path_exists w p then
    (Raise (Exn FileExistsError ("[Errno 17] File exists: " +:+ quoted p)), w)
  else
    let chain := dir_key p :: parents (String.length p) (dir_key p) in
    if existsb (is_file w) chain then
      (Raise (Exn NotADirectoryError
                ("[Errno 20] Not a directory: " +:+ quoted p)), w)
    else
      (Ok (), mkWorld (w_files w) (list_to_set chain ∪ w_dirs w) (w_stdout w)).

(** [os.listdir(d)]: the names of the entries directly under [d], in the
    order the system gives them. *)
Definition os_listdir (d : string) (w : world) : outcome (list string) :=
  if is_dir w d then
    let under (q : string) : Prop :=
      os_path_dirname q = dir_key d ∧ os_path_basename q ≠ EmptyString in
    Ok (elements (set_map (D:=gset string) os_path_basename
                    (filter under (dom (w_files w) ∪ w_dirs w))))
  else if is_file w d then
    Raise (Exn NotADirectoryError ("[Errno 20] Not a directory: " +:+ quoted d))
  else
    Raise (Exn FileNotFoundError
             ("[Errno 2] No such file or directory: " +:+ quoted d)).

(** [Image.open(p)]: the file must exist and be an image; the cursor of the
    opened image is on frame 0. *)
Definition Image_open (p : string) (w : world) : outcome GifImageFile :=
  match read_file w p with
  | Some (ImageFile size first more) => Ok (mkGif size (first :: more) 0)
  | Some OtherFile =>
      Raise (Exn UnidentifiedImageError
               ("cannot identify image file " +:+ quoted p))
  | None =>
      if is_dir w p then
        Raise (Exn IsADirectoryError ("[Errno 21] Is a directory: " +:+ quoted p))
      else
        Raise (Exn FileNotFoundError
                 ("[Errno 2] No such file or directory: " +:+ quoted p))
  end.

(** [im.save(p, 'PNG')]: opens [p] for writing, which needs the directory
    part of [p] to be a directory (the empty directory part is the working
    directory) and [p] not to be one, then writes the encoded image over
    whatever [p] held. *)
Definition Image_save (im : Image) (p : string) (w : world) : outcome unit * world :=
  let parent := os_path_dirname p in
  if is_dir w p then
    (Raise (Exn IsADirectoryError ("[Errno 21] Is a directory: " +:+ quoted p)), w)
  else if bool_decide (parent = EmptyString) || is_dir w parent then
    (Ok (), mkWorld (<[p := ImageFile (im_size im) im []]> (w_files w))
                    (w_dirs w) (w_stdout w))
  else if is_file w parent then
    (Raise (Exn NotADirectoryError ("[Errno 20] Not a directory: " +:+ quoted p)), w)
  else
    (Raise (Exn FileNotFoundError
              ("[Errno 2] No such file or directory: " +:+ quoted p)), w).

(** [print(line)]. *)
Definition print (line : string) (w : world) : world :=
  mkWorld (w_files w) (w_dirs w) (w_stdout w ++ [line]).

(** ** Running Python code against the world *)

(** A computation reads and changes the world and either returns, raises,
    or (for [None]) has not finished within its fuel.  The world a raised
    exception leaves behind is the one reached when it was raised. *)
Definition M (A : Type) : Type := world → option (outcome A * world).

#[global] Instance M_ret : MRet M := λ A a w, Some (Ok a, w).

#[global] Instance M_bind : MBind M := λ A B k m w,
  match m w with
  | None => None
  | Some (Raise e, w') => Some (Raise e, w')
  | Some (Ok a, w') => k a w'
  end.

(** A call that only reads the world. *)
Definition reads {A} (f : world → A) : M A := λ w, Some (Ok (f w), w).

(** A call that reads the world and may raise. *)
Definition attempt {A} (f : world → outcome A) : M A := λ w, Some (f w, w).

(** A call that changes the world and may raise. *)
Definition perform {A} (f : world → outcome A * world) : M A := λ w, Some (f w).

(** A call that only changes the world. *)
Definition writes (f : world → world) : M unit := λ w, Some (Ok (), f w).

(** [try: body  except Exception as e: handler(e)]. *)
Definition try_except {A} (body : M A) (handler : exn → M A) : M A := λ w,
  match body w with
  | None => None
  | Some (Raise e, w') => handler e w'
  | Some (Ok a, w') => Some (Ok a, w')
  end.

(** ** The program *)

(** <<
    def convert_gif_to_spritesheet(gif_path, output_dir=None):
        gif = Image.open(gif_path)
        base_filename = os.path.basename(gif_path)
        filename_without_ext = os.path.splitext(base_filename)[0]
        if output_dir is None:
            output_dir = os.path.dirname(gif_path)
        if not os.path.exists(output_dir):
            os.makedirs(output_dir)
        (lines 31-59: build_spritesheet)
        output_path = os.path.join(output_dir, f"{filename_without_ext}_spritesheet.png")
        spritesheet.save(output_path, 'PNG')
        print(f"Created spritesheet: {output_path}")
        return output_path
>> *)
Definition convert_gif_to_spritesheet (fuel : nat)
    (gif_path : string) (output_dir : option string) : M string :=
  gif ← attempt (Image_open gif_path);
  let base_filename := os_path_basename gif_path in
  let filename_without_ext := fst (os_path_splitext base_filename) in
  let output_dir :=
    match output_dir with
    | None => os_path_dirname gif_path
    | Some d => d
    end in
  found ← reads (λ w, os_path_exists w output_dir);
  (if negb found then perform (os_makedirs output_dir) else mret ());;
  spritesheet ← (λ w, o ← build_spritesheet fuel gif; Some (o, w)) : M Image;
  let output_path :=
    os_path_join output_dir (filename_without_ext +:+ "_spritesheet.png") in
  perform (Image_save spritesheet output_path);;
  writes (print ("Created spritesheet: " +:+ output_path));;
  mret output_path.

(** [filename.lower().endswith('.gif')]. *)
Definition is_gif (filename : string) : bool :=
  Str.endswith (Str.lower filename) ".gif".

(** The body of [for filename in os.listdir(directory)], with the tally
    [processed] carried along:
<<
    if filename.lower().endswith('.gif'):
        gif_path = os.path.join(directory, filename)
        try:
            convert_gif_to_spritesheet(gif_path, output_dir)
            processed += 1
        except Exception as e:
            print(f"Error processing {filename}: {e}")
>> *)
Fixpoint process_files (fuel : nat) (directory : string)
    (output_dir : option string) (filenames : list string) (processed : nat)
  : M nat :=
  match filenames with
  | [] => mret processed
  | filename :: filenames' =>
      if is_gif filename then
        let gif_path := os_path_join directory filename in
        processed ←
          try_except
            (convert_gif_to_spritesheet fuel gif_path output_dir;;
             mret (processed + 1))
            (λ e,
               writes (print ("Error processing " +:+ filename +:+ ": "
                              +:+ exn_str e));;
               mret processed);
        process_files fuel directory output_dir filenames' processed
      else process_files fuel directory output_dir filenames' processed
  end.

(** Lines 81-82 of [process_directory]:
<<
    if output_dir and not os.path.exists(output_dir):
        os.makedirs(output_dir)
>>
    [None] and the empty string are false in Python, and [and] does not
    evaluate its second operand then. *)
Definition ensure_output_dir (output_dir : option string) : M unit :=
  match output_dir with
  | Some d =>
      if bool_decide (d = EmptyString) then mret ()
      else
        found ← reads (λ w, os_path_exists w d);
        if negb found then perform (os_makedirs d) else mret ()
  | None => mret ()
  end.

(** <<
    def process_directory(directory, output_dir=None):
        if not os.path.exists(directory):
            print(f"Directory not found: {directory}")
            return
        (lines 81-82: ensure_output_dir)
        processed = 0
        for filename in os.listdir(directory):
            (lines 89-95: process_files)
        print(f"Processed {processed} GIF files")
>> *)
Definition process_directory (fuel : nat)
    (directory : string) (output_dir : option string) : M unit :=
  found ← reads (λ w, os_path_exists w directory);
  if negb found then
    writes (print ("Directory not found: " +:+ directory))
  else
    ensure_output_dir output_dir;;
    let processed := 0 in
    filenames ← attempt (os_listdir directory);
    processed ← process_files fuel directory output_dir filenames processed;
    writes (print ("Processed " +:+ pretty processed +:+ " GIF files")).

(** Line 106 of the script, [process_directory(args.input_dir,
    args.output_dir)], with the status the interpreter then exits with: 0
    when the call returns and the script runs to its end, 1 when an exception
    leaves it.  The line is reached only once [parser.parse_args()] (lines
    100-104) has returned [args]; a command line that [argparse] refuses ends
    the process inside [parse_args], with status 2, and [--help] ends it
    there with status 0.  [argparse] is not modelled: [input_dir] and
    [output_dir] are the fields of the [args] it returned, and every
    statement about [main] is about a run that got past it. *)
Definition main (fuel : nat) (input_dir : string) (output_dir : option string)
    (w : world) : option (nat * world) :=
  match process_directory fuel input_dir output_dir w with
  | None => None
  | Some (Ok _, w') => Some (0, w')
  | Some (Raise _, w') => Some (1, w')
  end.

(** ** The finished canvas, cell by cell *)

(** The pixel the canvas is meant to hold once the first [k] frames are
    pasted: the pixel of the frame whose cell it lies in, or the transparent
    pixel when that cell has no frame yet. *)
Definition sheet_pixel (frames : list Image) (width height cols : nat)
    (k px py : nat) : pixel :=
  let i := (py `div` height) * cols + px `div` width in
  if bool_decide (i < k)
  then default transparent
         (frames !! i ≫= λ frame, getpixel frame (px `mod` width, py `mod` height))
  else transparent.

Definition composited (frames : list Image) (width height cols : nat)
    (k : nat) (sheet : Image) (size : nat * nat) : Prop :=
  im_size sheet = size ∧
  ∀ px py, px < fst size → py < snd size →
           getpixel sheet (px, py) = Some (sheet_pixel frames width height cols k px py).

(** Every frame is a well-formed image of the size of the animation. *)
Definition uniform_frames (gif : GifImageFile) : Prop :=
  Forall (λ frame, im_wf frame ∧ im_size frame = gif_size gif) (gif_frames gif).

#[global] Instance im_wf_dec (im : Image) : Decision (im_wf im).
Proof. unfold im_wf. apply _. Defined.

#[global] Instance uniform_frames_dec (gif : GifImageFile) : Decision (uniform_frames gif).
Proof. unfold uniform_frames. apply _. Defined.

(** ** Where the builder writes *)

(** The directory the builder writes into: the one it is given, or the
    directory part of the source path. *)
Definition resolve_output_dir (gif_path : string) (output_dir : option string) : string :=
  match output_dir with
  | None => os_path_dirname gif_path
  | Some d => d
  end.

(** [{baseNameWithoutExtension}_spritesheet.png]. *)
Definition output_filename (gif_path : string) : string :=
  fst (os_path_splitext (os_path_basename gif_path)) +:+ "_spritesheet.png".

Definition output_path_of (gif_path : string) (output_dir : option string) : string :=
  os_path_join (resolve_output_dir gif_path output_dir) (output_filename gif_path).

(** ** What the batch driver reports *)

(** The line a file leaves on standard output: the builder's own message
    when it returned, the driver's diagnostic when it raised. *)
Definition report (filename : string) (o : outcome string) : string :=
  match o with
  | Ok output_path => "Created spritesheet: " +:+ output_path
  | Raise e => "Error processing " +:+ filename +:+ ": " +:+ exn_str e
  end.

Definition count_ok {A} (results : list (outcome A)) : nat :=
  length (filter (λ o, is_Ok o = true) results).

(** The file names the driver hands to the builder, in listing order. *)
Definition gif_files (filenames : list string) : list string :=
  filter (λ filename, is_gif filename = true) filenames.

(** The builder run on each name in turn: every run starts in the world the
    one before it left, to which the driver has added its diagnostic when
    that run raised.  [results] are the outcomes, in order. *)
Inductive batch_run (fuel : nat) (directory : string) (output_dir : option string)
  : world → list string → list (outcome string) → world → Prop :=
  | batch_run_nil w :
      batch_run fuel directory output_dir w [] [] w
  | batch_run_cons w filename filenames o w1 results w' :
      convert_gif_to_spritesheet fuel (os_path_join directory filename) output_dir w
      = Some (o, w1) →
      batch_run fuel directory output_dir
        (if is_Ok o then w1 else print (report filename o) w1)
        filenames results w' →
      batch_run fuel directory output_dir w (filename :: filenames) (o :: results) w'.

(** The fuel covers the counting loop on every image file of the world. *)
Definition frames_within (fuel : nat) (f : file) : Prop :=
  match f with
  | ImageFile _ _ more => S (length more) < fuel
  | OtherFile => True
  end.

Definition frames_bound (w : world) (fuel : nat) : Prop :=
  map_Forall (λ _ f, frames_within fuel f) (w_files w).

#[global] Instance frames_within_dec fuel f : Decision (frames_within fuel f).
Proof. destruct f; simpl; apply _. Defined.

#[global] Instance frames_bound_dec w fuel : Decision (frames_bound w fuel).
Proof. unfold frames_bound. apply _. Defined.

(** ** Sample data *)

Definition grey (n : N) : pixel := (n, n, n, 255%N).

(** A one-pixel frame. *)
Definition dot (n : N) : Image := mkImage (1, 1) [[grey n]].

(** A 2x1 frame with a half-transparent second pixel. *)
Definition bar (n : N) : Image := mkImage (2, 1) [[grey n; (n, 0, 0, 128)%N]].

(** Five 2x1 frames: a 3x2 grid with one unused cell. *)
Definition five_bars : GifImageFile :=
  mkGif (2, 1) [bar 1; bar 2; bar 3; bar 4; bar 5] 0.

(** An object with no frame at all, which no file opens to. *)
Definition no_frames : GifImageFile := mkGif (2, 2) [] 0.

(** A directory with three animations, one corrupt [.gif] and a text file. *)
Definition sprites_world : world :=
  mkWorld
    (<["sprites/walk.gif" := ImageFile (1, 1) (dot 1) [dot 2; dot 3; dot 4; dot 5]]>
    (<["sprites/IDLE.GIF" := ImageFile (1, 1) (dot 7) []]>
    (<["sprites/jump.gif" := ImageFile (2, 1) (bar 1) [bar 2]]>
    (<["sprites/broken.gif" := OtherFile]>
    (<["sprites/readme.txt" := OtherFile]> ∅)))))
    {["sprites"]} [].

(** [sprites_world] after the builder has run once on [sprites/jump.gif]. *)
Definition built_once : world :=
  match convert_gif_to_spritesheet 3 "sprites/jump.gif" None sprites_world with
  | Some (_, w) => w
  | None => sprites_world
  end.

(** A single animation in the working directory. *)
Definition cwd_world : world :=
  mkWorld {["walk.gif" := ImageFile (1, 1) (dot 1) [dot 2]]} ∅ [].

(** * Properties *)

(** ** Arithmetic of the layout *)

Section layout.

Lemma math_ceil_sqrt_upper (n : nat) : n ≤ math_ceil_sqrt n * math_ceil_sqrt n.
Proof.
  unfold math_ceil_sqrt. pose proof (Nat.sqrt_specif n) as [Hlo Hhi].
  destruct (Nat.eqb_spec (Nat.sqrt n * Nat.sqrt n) n); lia.
Qed.

Lemma math_ceil_sqrt_least (n c : nat) : n ≤ c * c → math_ceil_sqrt n ≤ c.
Proof.
  intros Hc. unfold math_ceil_sqrt. pose proof (Nat.sqrt_specif n) as [Hlo Hhi].
  destruct (Nat.eqb_spec (Nat.sqrt n * Nat.sqrt n) n) as [Heq|Hne]; nia.
Qed.

Lemma math_ceil_sqrt_pos (n : nat) : 1 ≤ n → 1 ≤ math_ceil_sqrt n.
Proof.
  intros Hn. pose proof (math_ceil_sqrt_upper n).
  destruct (math_ceil_sqrt n); lia.
Qed.

Lemma math_ceil_sqrt_le (n : nat) : math_ceil_sqrt n ≤ n.
Proof.
  destruct n as [|n]; [done|].
  apply math_ceil_sqrt_least. nia.
Qed.

Lemma math_ceil_div_Ok (a b : nat) :
  b ≠ 0 →
  ∃ r, math_ceil_div a b = Ok r ∧ a ≤ r * b ∧ ∀ r', a ≤ r' * b → r ≤ r'.
Proof.
  intros Hb. unfold math_ceil_div.
  destruct (Nat.eqb_spec b 0) as [?|_]; [done|].
  eexists; split; [done|].
  pose proof (Nat.div_mod_eq a b) as Hdm.
  pose proof (Nat.mod_upper_bound a b Hb) as Hlt.
  destruct (Nat.eqb_spec (a `mod` b) 0) as [Hz|Hnz].
  - split; [nia|]. intros r' Hr'. nia.
  - split; [nia|]. intros r' Hr'.
    destruct (decide (a `div` b + 1 ≤ r')) as [|Hgt]; [done|]. nia.
Qed.

Lemma grid_layout_Ok (frames : nat) :
  1 ≤ frames →
  ∃ rows, grid_layout frames = Ok (math_ceil_sqrt frames, rows) ∧
          1 ≤ rows ∧
          frames ≤ rows * math_ceil_sqrt frames ∧
          ∀ r, frames ≤ r * math_ceil_sqrt frames → rows ≤ r.
Proof.
  intros Hn. pose proof (math_ceil_sqrt_pos frames Hn) as Hc.
  destruct (math_ceil_div_Ok frames (math_ceil_sqrt frames)) as (r & Hr & Hup & Hleast);
    [lia|].
  exists r. unfold grid_layout. rewrite Hr. repeat split; try done.
  destruct r; [lia|lia].
Qed.

End layout.

(** ** The frame cursor and the counting loop *)

Section counting.

Implicit Types (gif : GifImageFile) (fuel frames : nat).

Lemma seek_Ok gif frame :
  frame < length (gif_frames gif) →
  seek gif frame = Ok (mkGif (gif_size gif) (gif_frames gif) frame).
Proof. intros Hlt. unfold seek. by rewrite bool_decide_eq_true_2. Qed.

Lemma seek_EOF gif frame :
  length (gif_frames gif) ≤ frame → seek gif frame = raise_EOFError.
Proof. intros Hge. unfold seek. rewrite bool_decide_eq_false_2; [done|lia]. Qed.

Lemma seek_inv gif frame gif' :
  seek gif frame = Ok gif' →
  frame < length (gif_frames gif) ∧ gif_size gif' = gif_size gif ∧
  gif_frames gif' = gif_frames gif ∧ gif_tell gif' = frame.
Proof.
  unfold seek. case_bool_decide; [|done].
  intros [= <-]. done.
Qed.

(** From any index not past the end, the scan stops exactly at the number of
    frames, as soon as the fuel covers the remaining seeks. *)
Lemma count_frames_from fuel gif frames :
  frames ≤ length (gif_frames gif) →
  length (gif_frames gif) - frames < fuel →
  ∃ gif', count_frames fuel gif frames = Some (Ok (gif', length (gif_frames gif))) ∧
          gif_size gif' = gif_size gif ∧ gif_frames gif' = gif_frames gif.
Proof.
  revert gif frames. induction fuel as [|fuel IH]; intros gif frames Hle Hfuel; [lia|].
  simpl. destruct (decide (frames < length (gif_frames gif))) as [Hlt|Hge].
  - rewrite seek_Ok by done.
    destruct (IH (mkGif (gif_size gif) (gif_frames gif) frames) (frames + 1))
      as (gif' & -> & ? & ?); simpl; [lia|lia|].
    by exists gif'.
  - rewrite seek_EOF by lia. simpl.
    exists gif. by replace frames with (length (gif_frames gif)) by lia.
Qed.

(** With less fuel than seeks the scan has not finished. *)
Lemma count_frames_starved fuel gif frames :
  fuel + frames ≤ length (gif_frames gif) → count_frames fuel gif frames = None.
Proof.
  revert gif frames. induction fuel as [|fuel IH]; intros gif frames Hle; [done|].
  simpl. rewrite seek_Ok by lia. apply IH. simpl. lia.
Qed.

End counting.

(** ** Pixels of a pasted and of a fresh image *)

Section images.

Implicit Types (dst src im : Image) (p : pixel).

Lemma getpixel_Some_lt im x y p :
  im_wf im → getpixel im (x, y) = Some p → x < im_width im ∧ y < im_height im.
Proof.
  intros [Hh Hw]. unfold getpixel. simpl.
  destruct (im_rows im !! y) as [row|] eqn:Hrow; [|done]. simpl. intros Hp.
  apply lookup_lt_Some in Hp.
  rewrite Forall_lookup in Hw. rewrite (Hw _ _ Hrow) in Hp.
  apply lookup_lt_Some in Hrow. lia.
Qed.

Lemma getpixel_is_Some im x y :
  im_wf im → x < im_width im → y < im_height im → is_Some (getpixel im (x, y)).
Proof.
  intros [Hh Hw] Hx Hy. unfold getpixel. simpl.
  destruct (lookup_lt_is_Some_2 (im_rows im) y) as [row Hrow]; [lia|].
  rewrite Hrow. simpl. apply lookup_lt_is_Some_2.
  rewrite Forall_lookup in Hw. by rewrite (Hw _ _ Hrow).
Qed.

Lemma Image_new_wf size color : im_wf (Image_new size color).
Proof.
  split; simpl.
  - by rewrite length_replicate.
  - apply Forall_replicate. by rewrite length_replicate.
Qed.

Lemma getpixel_Image_new size color x y :
  x < fst size → y < snd size → getpixel (Image_new size color) (x, y) = Some color.
Proof.
  intros Hx Hy. unfold getpixel. simpl.
  rewrite lookup_replicate_2 by done. simpl. by rewrite lookup_replicate_2.
Qed.

Lemma paste_size dst src xy : im_size (paste dst src xy) = im_size dst.
Proof. by destruct xy. Qed.

Lemma paste_wf dst src xy : im_wf dst → im_wf (paste dst src xy).
Proof.
  destruct xy as [x y]. intros [Hh Hw]. split.
  - simpl. by rewrite length_imap.
  - simpl. rewrite Forall_lookup. intros i row.
    rewrite list_lookup_imap. intros Hrow.
    apply fmap_Some in Hrow as (row0 & Hrow0 & ->).
    rewrite length_imap. rewrite Forall_lookup in Hw. by eapply Hw.
Qed.

(** The pixel of the destination after a paste: inside the box it is the
    pixel of the source, whatever was there and whatever its alpha; outside
    it is the old pixel. *)
Lemma getpixel_paste dst src x y px py :
  getpixel (paste dst src (x, y)) (px, py) =
  (λ old,
     if bool_decide (x ≤ px < x + im_width src ∧ y ≤ py < y + im_height src)
     then default old (getpixel src (px - x, py - y))
     else old) <$> getpixel dst (px, py).
Proof.
  unfold getpixel at 1 3. simpl. rewrite list_lookup_imap.
  destruct (im_rows dst !! py) as [row|]; [|done]. simpl.
  by rewrite list_lookup_imap.
Qed.

Lemma getpixel_paste_inside dst src x y dx dy :
  im_wf src → dx < im_width src → dy < im_height src →
  is_Some (getpixel dst (x + dx, y + dy)) →
  getpixel (paste dst src (x, y)) (x + dx, y + dy) = getpixel src (dx, dy).
Proof.
  intros Hwf Hdx Hdy [old Hold]. rewrite getpixel_paste, Hold. simpl.
  rewrite bool_decide_eq_true_2 by lia.
  replace (x + dx - x) with dx by lia. replace (y + dy - y) with dy by lia.
  by destruct (getpixel_is_Some src dx dy) as [p ->].
Qed.

Lemma getpixel_paste_outside dst src x y px py :
  ¬ (x ≤ px < x + im_width src ∧ y ≤ py < y + im_height src) →
  getpixel (paste dst src (x, y)) (px, py) = getpixel dst (px, py).
Proof.
  intros Hout. rewrite getpixel_paste.
  destruct (getpixel dst (px, py)); [|done]. simpl.
  by rewrite bool_decide_eq_false_2.
Qed.

End images.

(** ** Cells of the grid *)

Lemma cell_of_pixel (w c px : nat) :
  0 < w → (c * w ≤ px < c * w + w ↔ px `div` w = c).
Proof.
  intros Hw. pose proof (Nat.div_mod_eq px w) as Hdm.
  pose proof (Nat.mod_upper_bound px w) as Hlt.
  split; [intros [Hlo Hhi]; nia | intros <-; nia].
Qed.

Lemma cell_offset (w px : nat) : px - (px `div` w) * w = px `mod` w.
Proof. pose proof (Nat.div_mod_eq px w). lia. Qed.

Lemma cell_index (cols q r k : nat) :
  r < cols → (q * cols + r = k ↔ r = k `mod` cols ∧ q = k `div` cols).
Proof.
  intros Hr. pose proof (Nat.div_mod_eq k cols) as Hdm.
  pose proof (Nat.mod_upper_bound k cols) as Hlt.
  split; [intros <-|intros [-> ->]; lia].
  split.
  - apply Nat.mod_unique with q; lia.
  - apply Nat.div_unique with r; lia.
Qed.

Lemma pixel_column_lt (w cols px : nat) : px < w * cols → px `div` w < cols.
Proof. intros Hpx. apply Nat.Div0.div_lt_upper_bound; lia. Qed.

Lemma composited_new (frames : list Image) (width height cols rows : nat) :
  composited frames width height cols 0
    (Image_new (width * cols, height * rows) transparent)
    (width * cols, height * rows).
Proof.
  split; [done|]. intros px py Hpx Hpy.
  rewrite getpixel_Image_new by done.
  unfold sheet_pixel. by rewrite bool_decide_eq_false_2 by lia.
Qed.

(** ** The compositing loop *)

Section compositing.

Variables (frames : list Image) (width height cols : nat).
Hypothesis cols_pos : 0 < cols.
Hypothesis uniform :
  Forall (λ frame, im_wf frame ∧ im_size frame = (width, height)) frames.

Local Abbreviation sheet_px := (sheet_pixel frames width height cols).
Local Abbreviation done_upto := (composited frames width height cols).

Lemma composited_paste (k rows : nat) (sheet frame_img : Image) :
  frames !! k = Some frame_img →
  done_upto k sheet (width * cols, height * rows) →
  done_upto (S k)
    (paste sheet frame_img ((k `mod` cols) * width, (k `div` cols) * height))
    (width * cols, height * rows).
Proof.
  intros Hk [Hsize Hpix].
  rewrite Forall_lookup in uniform. destruct (uniform _ _ Hk) as [Hwf Hfsize].
  split; [by rewrite paste_size|]. intros px py Hpx Hpy.
  rewrite getpixel_paste, (Hpix px py Hpx Hpy). simpl in *. f_equal.
  assert (0 < width) as Hw by (destruct width; lia).
  assert (0 < height) as Hh by (destruct height; lia).
  pose proof (pixel_column_lt _ _ _ Hpx) as Hcol.
  unfold im_width, im_height. rewrite Hfsize. simpl.
  unfold sheet_pixel.
  case_bool_decide as Hbox.
  - destruct Hbox as [Hx%cell_of_pixel Hy%cell_of_pixel]; [|done..].
    assert (py `div` height * cols + px `div` width = k) as Hi
      by (apply cell_index; done).
    rewrite Hi, Hk. simpl.
    rewrite (bool_decide_eq_true_2 (k < S k)) by lia.
    rewrite <- Hx, <- Hy, !cell_offset.
    destruct (getpixel_is_Some frame_img (px `mod` width) (py `mod` height))
      as [p ->]; [done|..|done].
    + unfold im_width. rewrite Hfsize. by apply Nat.mod_upper_bound, Nat.neq_0_lt_0.
    + unfold im_height. rewrite Hfsize. by apply Nat.mod_upper_bound, Nat.neq_0_lt_0.
  - assert (py `div` height * cols + px `div` width ≠ k) as Hi.
    { intros [Hx Hy]%cell_index; [|done]. apply Hbox.
      split; apply cell_of_pixel; done. }
    repeat case_bool_decide; done || lia.
Qed.

(** Pasting the frames [k], [k+1], ..., [k+m-1] from a canvas that holds
    the first [k] gives a canvas that holds the first [k+m]; no step raises. *)
Lemma paste_frames_composited (m k rows : nat) (gif : GifImageFile) (sheet : Image) :
  gif_frames gif = frames →
  k + m ≤ length frames →
  done_upto k sheet (width * cols, height * rows) →
  ∃ gif' sheet',
    paste_frames width height cols (gif, sheet) (seq k m) = Ok (gif', sheet') ∧
    done_upto (k + m) sheet' (width * cols, height * rows).
Proof.
  revert k gif sheet. induction m as [|m IH]; intros k gif sheet Hgif Hlen Hinv.
  - exists gif, sheet. by rewrite Nat.add_0_r.
  - cbn [seq paste_frames]. unfold paste_frame.
    rewrite seek_Ok by (rewrite Hgif; lia).
    unfold convert_RGBA. cbn [gif_frames gif_tell]. rewrite Hgif.
    destruct (lookup_lt_is_Some_2 frames k) as [frame_img Hk]; [lia|].
    rewrite Hk. unfold py_divmod.
    destruct (Nat.eqb_spec cols 0) as [?|_]; [lia|].
    destruct (IH (S k) (mkGif (gif_size gif) frames k)
                (paste sheet frame_img ((k `mod` cols) * width, (k `div` cols) * height)))
      as (gif' & sheet' & Hrun & Hinv'); [done|lia|by apply composited_paste|].
    exists gif', sheet'. split; [done|].
    by replace (k + S m) with (S k + m) by lia.
Qed.

End compositing.

(** ** The canvas the builder computes *)

(** On an animation with at least one frame, all of one size, the builder
    finishes without raising and its canvas holds every frame in its cell
    and the transparent pixel elsewhere. *)
Lemma build_spritesheet_composited (fuel : nat) (gif : GifImageFile) :
  uniform_frames gif →
  1 ≤ length (gif_frames gif) →
  length (gif_frames gif) < fuel →
  let frames := length (gif_frames gif) in
  let cols := math_ceil_sqrt frames in
  ∃ rows sheet,
    grid_layout frames = Ok (cols, rows) ∧
    build_spritesheet fuel gif = Some (Ok sheet) ∧
    composited (gif_frames gif) (fst (gif_size gif)) (snd (gif_size gif)) cols
      frames sheet (fst (gif_size gif) * cols, snd (gif_size gif) * rows).
Proof.
  intros Huni Hone Hfuel frames cols.
  destruct (grid_layout_Ok frames Hone) as (rows & Hlayout & Hrows & Hcover & _).
  destruct (count_frames_from fuel gif 0) as (gif1 & Hcount & Hsize1 & Hframes1);
    [lia|lia|].
  unfold uniform_frames in Huni.
  destruct (gif_size gif) as [width height] eqn:Hsize.
  destruct (paste_frames_composited (gif_frames gif) width height cols
              (math_ceil_sqrt_pos frames Hone) Huni frames 0 rows gif1
              (Image_new (width * cols, height * rows) transparent))
    as (gif2 & sheet & Hrun & Hinv); [done|done|apply composited_new|].
  exists rows, sheet. split; [done|]. split; [|done].
  unfold build_spritesheet. rewrite Hsize, Hcount. fold frames.
  rewrite Hlayout. fold cols. by rewrite Hrun.
Qed.

(** The pixel of the canvas at an offset inside the cell of frame [i]. *)
Lemma sheet_pixel_in_cell (frames : list Image) (width height cols k i dx dy : nat)
    (frame : Image) :
  0 < cols → i < k → dx < width → dy < height →
  frames !! i = Some frame →
  sheet_pixel frames width height cols k
    ((i `mod` cols) * width + dx) ((i `div` cols) * height + dy) =
  default transparent (getpixel frame (dx, dy)).
Proof.
  intros Hcols Hik Hdx Hdy Hi. unfold sheet_pixel.
  assert (((i `mod` cols) * width + dx) `div` width = i `mod` cols) as ->
    by (symmetry; apply Nat.div_unique with dx; lia).
  assert (((i `div` cols) * height + dy) `div` height = i `div` cols) as ->
    by (symmetry; apply Nat.div_unique with dy; lia).
  assert (((i `mod` cols) * width + dx) `mod` width = dx) as ->
    by (symmetry; apply Nat.mod_unique with (i `mod` cols); lia).
  assert (((i `div` cols) * height + dy) `mod` height = dy) as ->
    by (symmetry; apply Nat.mod_unique with (i `div` cols); lia).
  assert (i `div` cols * cols + i `mod` cols = i) as ->
    by (pose proof (Nat.div_mod_eq i cols); lia).
  rewrite bool_decide_eq_true_2 by done. by rewrite Hi.
Qed.

(** Whatever the sizes of the frames, the loop over [range(frames)] never
    raises when [cols] is positive and every index is a frame, and it keeps
    the size of the canvas. *)
Lemma paste_frames_Ok (width height cols m k : nat) (gif : GifImageFile) (sheet : Image) :
  0 < cols → k + m ≤ length (gif_frames gif) →
  ∃ gif' sheet',
    paste_frames width height cols (gif, sheet) (seq k m) = Ok (gif', sheet') ∧
    gif_frames gif' = gif_frames gif ∧ im_size sheet' = im_size sheet.
Proof.
  intros Hcols. revert k gif sheet.
  induction m as [|m IH]; intros k gif sheet Hlen; [by exists gif, sheet|].
  cbn [seq paste_frames]. unfold paste_frame.
  rewrite seek_Ok by lia.
  unfold convert_RGBA. cbn [gif_frames gif_tell].
  destruct (lookup_lt_is_Some_2 (gif_frames gif) k) as [frame_img ->]; [lia|].
  unfold py_divmod. destruct (Nat.eqb_spec cols 0) as [?|_]; [lia|].
  destruct (IH (S k) (mkGif (gif_size gif) (gif_frames gif) k)
              (paste sheet frame_img ((k `mod` cols) * width, (k `div` cols) * height)))
    as (gif' & sheet' & -> & Hframes & Hsize); [simpl; lia|].
  exists gif', sheet'. by rewrite Hsize, paste_size.
Qed.

(** The builder on any animation with at least one frame: it finishes as
    soon as the fuel covers the counting loop, it does not raise, and its
    canvas has the size of the grid. *)
Lemma build_spritesheet_Ok (fuel : nat) (gif : GifImageFile) :
  1 ≤ length (gif_frames gif) →
  length (gif_frames gif) < fuel →
  ∃ rows sheet,
    grid_layout (length (gif_frames gif))
      = Ok (math_ceil_sqrt (length (gif_frames gif)), rows) ∧
    build_spritesheet fuel gif = Some (Ok sheet) ∧
    im_size sheet = (fst (gif_size gif) * math_ceil_sqrt (length (gif_frames gif)),
                     snd (gif_size gif) * rows).
Proof.
  intros Hone Hfuel.
  destruct (grid_layout_Ok _ Hone) as (rows & Hlayout & _).
  destruct (count_frames_from fuel gif 0) as (gif1 & Hcount & Hsize1 & Hframes1);
    [lia|lia|].
  destruct (gif_size gif) as [width height] eqn:Hsize.
  destruct (paste_frames_Ok width height (math_ceil_sqrt (length (gif_frames gif)))
              (length (gif_frames gif)) 0 gif1
              (Image_new (width * math_ceil_sqrt (length (gif_frames gif)),
                          height * rows) transparent))
    as (gif2 & sheet & Hrun & _ & Hsz);
    [by apply math_ceil_sqrt_pos|rewrite Hframes1; lia|].
  exists rows, sheet. split; [done|]. split; [|done].
  unfold build_spritesheet. by rewrite Hsize, Hcount, Hlayout, Hrun.
Qed.

(** A run of the builder that ended had fuel for the whole scan. *)
Lemma build_spritesheet_Some (fuel : nat) (gif : GifImageFile) (o : outcome Image) :
  build_spritesheet fuel gif = Some o → length (gif_frames gif) < fuel.
Proof.
  intros Hrun. destruct (decide (length (gif_frames gif) < fuel)) as [|Hge]; [done|].
  unfold build_spritesheet in Hrun. destruct (gif_size gif).
  rewrite count_frames_starved in Hrun by lia. done.
Qed.

(** ** Strings and paths *)

Section strings.

Implicit Types (s a b p d n : string) (c : ascii).

Lemma str_app_cons c a b : String c a +:+ b = String c (a +:+ b).
Proof. done. Qed.

Lemma str_app_nil b : EmptyString +:+ b = b.
Proof. done. Qed.

Lemma str_app_nil_r a : a +:+ EmptyString = a.
Proof. induction a as [|c a IH]; [done|]. by rewrite str_app_cons, IH. Qed.

Lemma str_app_assoc a b s : (a +:+ b) +:+ s = a +:+ b +:+ s.
Proof. induction a as [|c a IH]; [done|]. by rewrite !str_app_cons, IH. Qed.

Lemma str_length_app a b :
  String.length (a +:+ b) = String.length a + String.length b.
Proof. induction a as [|c a IH]; [done|]. rewrite str_app_cons. simpl. by rewrite IH. Qed.

Lemma str_take_drop k s : Str.take k s +:+ Str.drop k s = s.
Proof.
  revert s. induction k as [|k IH]; intros [|c s]; try done.
  simpl. by rewrite str_app_cons, IH.
Qed.

Lemma str_drop_app a b : Str.drop (String.length a) (a +:+ b) = b.
Proof. induction a as [|c a IH]; [by destruct b|]. by rewrite str_app_cons. Qed.

Lemma str_length_drop k s : String.length (Str.drop k s) = String.length s - k.
Proof. revert s. induction k as [|k IH]; intros [|c s]; try done. simpl. apply IH. Qed.

(** The last occurrence in a concatenation is the last one of the right
    part when it has one, else the last one of the left part. *)
Lemma rfind1_app c a b :
  Str.rfind1 c (a +:+ b) =
  match Str.rfind1 c b with
  | 0 => Str.rfind1 c a
  | S i => String.length a + S i
  end.
Proof.
  induction a as [|x a IH]; [rewrite str_app_nil; by destruct (Str.rfind1 c b)|].
  rewrite str_app_cons. simpl. rewrite IH.
  destruct (Str.rfind1 c b); [done|].
  by replace (String.length a + S n) with (S (String.length a + n)) by lia.
Qed.

Lemma rfind1_le c s : Str.rfind1 c s ≤ String.length s.
Proof.
  induction s as [|x s IH]; [done|]. simpl.
  destruct (Str.rfind1 c s); [case_decide; lia|lia].
Qed.

(** The character at the position [rfind] gives is the one looked for. *)
Lemma rfind1_drop c s i :
  Str.rfind1 c s = S i → ∃ e, Str.drop i s = String c e.
Proof.
  revert i. induction s as [|x s IH]; intros i; [done|]. simpl.
  destruct (Str.rfind1 c s) as [|j] eqn:Hj.
  - case_decide as Hx; [|done]. intros [= <-]. subst x. by exists s.
  - intros [= <-]. by apply IH.
Qed.

(** Nothing of [c] is left after its last occurrence. *)
Lemma rfind1_drop_absent c s : Str.rfind1 c (Str.drop (Str.rfind1 c s) s) = 0.
Proof.
  induction s as [|x s IH]; [done|]. simpl.
  destruct (Str.rfind1 c s) as [|j] eqn:Hj.
  - case_decide; simpl; [done|]. rewrite Hj. by case_decide.
  - done.
Qed.

Lemma endswith_split s suf :
  Str.endswith s suf = true → ∃ pre, s = pre +:+ suf.
Proof.
  unfold Str.endswith. intros [_ Hsuf]%bool_decide_eq_true.
  exists (Str.take (String.length s - String.length suf) s).
  rewrite <- (str_take_drop (String.length s - String.length suf) s) at 1.
  by rewrite Hsuf.
Qed.

Lemma basename_no_slash p : Str.rfind1 "/" (os_path_basename p) = 0.
Proof. apply rfind1_drop_absent. Qed.

(** Joining a directory and a name without slash, then taking the last
    component, gives the name back. *)
Lemma basename_join d n :
  Str.rfind1 "/" n = 0 → os_path_basename (os_path_join d n) = n.
Proof.
  intros Hn. unfold os_path_join, os_path_basename.
  assert (Str.startswith n "/" = false) as ->.
  { unfold Str.startswith. apply bool_decide_eq_false. intros Hpre.
    destruct n as [|x n]; [done|]. simpl in Hpre.
    injection Hpre as Hx. subst x.
    simpl in Hn. by destruct (Str.rfind1 "/" n). }
  destruct (bool_decide (d = EmptyString) || Str.endswith d "/") eqn:Hd.
  - rewrite rfind1_app, Hn.
    apply orb_true_iff in Hd as [->%bool_decide_eq_true|[pre ->]%endswith_split];
      [done|].
    rewrite rfind1_app. simpl.
    replace (String.length pre + 1) with (String.length (pre +:+ "/"))
      by (by rewrite str_length_app).
    apply str_drop_app.
  - rewrite rfind1_app. rewrite (rfind1_app _ "/" n), Hn. simpl.
    replace (String.length d + 1) with (String.length (d +:+ "/"))
      by (by rewrite str_length_app).
    replace (d +:+ "/" +:+ n) with ((d +:+ "/") +:+ n)
      by apply str_app_assoc.
    apply str_drop_app.
Qed.

(** [splitext] cuts its argument in two, and the extension is empty or
    starts with a dot. *)
Lemma splitext_spec p :
  p = fst (os_path_splitext p) +:+ snd (os_path_splitext p) ∧
  (snd (os_path_splitext p) = EmptyString ∨
   ∃ e, snd (os_path_splitext p) = String "." e).
Proof.
  unfold os_path_splitext.
  destruct (bool_decide (Str.rfind1 "/" p < Str.rfind1 "." p) && _) eqn:Hcut; simpl.
  - apply andb_true_iff in Hcut as [Hlt%bool_decide_eq_true _].
    split; [by rewrite str_take_drop|]. right.
    destruct (Str.rfind1 "." p) as [|i] eqn:Hdot; [lia|].
    simpl. rewrite Nat.sub_0_r. by apply rfind1_drop.
  - split; [|by left]. by rewrite str_app_nil_r.
Qed.

(** The builder never writes over the file it reads: the name it writes
    ends in [_spritesheet.png], which is no extension of the name it read. *)
Lemma output_path_fresh d p :
  os_path_join d (fst (os_path_splitext (os_path_basename p)) +:+ "_spritesheet.png")
  ≠ p.
Proof.
  intros Heq.
  destruct (splitext_spec (os_path_basename p)) as [Hcut Hext].
  set (root := fst (os_path_splitext (os_path_basename p))) in *.
  set (ext := snd (os_path_splitext (os_path_basename p))) in *.
  assert (Str.rfind1 "/" root = 0) as Hroot.
  { pose proof (basename_no_slash p) as Hb. rewrite Hcut, rfind1_app in Hb.
    destruct (Str.rfind1 "/" ext); [done|lia]. }
  assert (os_path_basename p = root +:+ "_spritesheet.png") as Hname.
  { rewrite <- Heq at 1. apply basename_join. by rewrite rfind1_app. }
  rewrite Hcut in Hname at 1. apply (inj (String.app root)) in Hname.
  destruct Hext as [Hext|[e Hext]]; by rewrite Hext in Hname.
Qed.

Lemma dirname_bare p : Str.rfind1 "/" p = 0 → os_path_dirname p = EmptyString.
Proof. intros Hp. unfold os_path_dirname. by rewrite Hp. Qed.

End strings.

(** ** The world under the calls of the program *)

Section worlds.

Implicit Types (w : world) (p d : string).

Lemma is_dir_empty w : is_dir w EmptyString = false.
Proof. done. Qed.

Lemma os_path_exists_empty w : os_path_exists w EmptyString = false.
Proof. done. Qed.

Lemma read_file_Some w p f : read_file w p = Some f → w_files w !! p = Some f.
Proof. unfold read_file. by case_decide. Qed.

(** [os.makedirs] when it returns: the path was new, it is a directory
    afterwards, and neither a file nor the output changed. *)
Lemma os_makedirs_Ok d w u w' :
  os_makedirs d w = (Ok u, w') →
  os_path_exists w d = false ∧ is_dir w' d = true ∧
  w_files w' = w_files w ∧ w_stdout w' = w_stdout w ∧ w_dirs w ⊆ w_dirs w'.
Proof.
  unfold os_makedirs. case_decide as Hd; [done|].
  destruct (os_path_exists w d) eqn:Hex; [done|].
  destruct (existsb _ _); [done|]. intros [= <- <-]. simpl.
  split; [done|]. split; [|split; [done|split; [done|set_solver]]].
  unfold is_dir. simpl. apply andb_true_iff. split.
  - by apply negb_true_iff, bool_decide_eq_false.
  - apply bool_decide_eq_true. set_solver.
Qed.

Lemma os_makedirs_Raise d w e w' : os_makedirs d w = (Raise e, w') → w' = w.
Proof.
  unfold os_makedirs. case_decide; [by intros [= _ <-]|].
  destruct (os_path_exists w d); [by intros [= _ <-]|].
  destruct (existsb _ _); [by intros [= _ <-]|done].
Qed.

Lemma os_makedirs_empty w :
  os_makedirs EmptyString w =
  (Raise (Exn FileNotFoundError "[Errno 2] No such file or directory: ''"), w).
Proof. done. Qed.

(** [save] when it returns: the path holds the PNG of the image, nothing
    else changed. *)
Lemma Image_save_Ok im p w u w' :
  Image_save im p w = (Ok u, w') →
  w' = mkWorld (<[p := ImageFile (im_size im) im []]> (w_files w))
               (w_dirs w) (w_stdout w).
Proof.
  unfold Image_save. destruct (is_dir w p); [done|].
  destruct (_ || _); [by intros [= _ <-]|]. by destruct (is_file w _).
Qed.

Lemma Image_save_Raise im p w e w' : Image_save im p w = (Raise e, w') → w' = w.
Proof.
  unfold Image_save. destruct (is_dir w p); [by intros [= _ <-]|].
  destruct (_ || _); [done|]. by destruct (is_file w _); intros [= _ <-].
Qed.

(** Whether [save] returns depends on the directories only. *)
Lemma Image_save_dirs im p w1 w2 :
  w_dirs w1 = w_dirs w2 →
  is_Ok (fst (Image_save im p w1)) = true →
  Image_save im p w2 =
  (Ok (), mkWorld (<[p := ImageFile (im_size im) im []]> (w_files w2))
                  (w_dirs w2) (w_stdout w2)).
Proof.
  intros Hdirs. unfold Image_save, is_dir. rewrite Hdirs.
  destruct (negb _ && bool_decide (dir_key p ∈ _)); [done|].
  destruct (_ || _); [done|]. by destruct (is_file w1 _).
Qed.

Lemma Image_open_Ok p w gif :
  Image_open p w = Ok gif →
  ∃ size first more,
    w_files w !! p = Some (ImageFile size first more) ∧
    gif = mkGif size (first :: more) 0.
Proof.
  unfold Image_open. destruct (read_file w p) as [[size first more|]|] eqn:Hf.
  - intros [= <-]. apply read_file_Some in Hf. eauto.
  - done.
  - by destruct (is_dir w p).
Qed.

(** Opening reads one file only. *)
Lemma Image_open_agree p w1 w2 :
  w_files w1 !! p = w_files w2 !! p →
  is_Ok (Image_open p w1) = true → Image_open p w2 = Image_open p w1.
Proof.
  unfold Image_open, read_file. intros Heq. case_decide.
  - by destruct (is_dir w1 p).
  - rewrite Heq. destruct (w_files w2 !! p) as [[]|]; try done.
    by destruct (is_dir w1 p).
Qed.

End worlds.

(** ** The builder, step by step *)

Section builder.

Implicit Types (w : world) (gif_path : string) (output_dir : option string).

(** [convert_gif_to_spritesheet] with its sequencing written out. *)
Lemma convert_gif_to_spritesheet_eq fuel gif_path output_dir w :
  convert_gif_to_spritesheet fuel gif_path output_dir w =
  match Image_open gif_path w with
  | Raise e => Some (Raise e, w)
  | Ok gif =>
      let dir := resolve_output_dir gif_path output_dir in
      let ensured := if os_path_exists w dir then (Ok (), w) else os_makedirs dir w in
      match ensured with
      | (Raise e, wa) => Some (Raise e, wa)
      | (Ok _, wa) =>
          match build_spritesheet fuel gif with
          | None => None
          | Some (Raise e) => Some (Raise e, wa)
          | Some (Ok spritesheet) =>
              let output_path := output_path_of gif_path output_dir in
              match Image_save spritesheet output_path wa with
              | (Raise e, wb) => Some (Raise e, wb)
              | (Ok _, wb) =>
                  Some (Ok output_path,
                        print ("Created spritesheet: " +:+ output_path) wb)
              end
          end
      end
  end.
Proof.
  unfold convert_gif_to_spritesheet, output_path_of, output_filename,
    resolve_output_dir, mbind, M_bind, mret, M_ret, attempt, reads, perform, writes.
  destruct (Image_open gif_path w) as [gif|e]; [|done]. simpl.
  destruct (os_path_exists w _); simpl.
  - destruct (build_spritesheet fuel gif) as [[sheet|e]|]; try done; simpl;
      by destruct (Image_save _ _ _) as [[[]|e] wb].
  - destruct (os_makedirs _ w) as [[[]|e] wa]; [|done].
    destruct (build_spritesheet fuel gif) as [[sheet|e]|]; try done; simpl;
      by destruct (Image_save _ _ _) as [[[]|e] wb].
Qed.

(** The worlds a run goes through keep the fuel sufficient: the builder
    adds single-image files only. *)
Lemma frames_bound_saved w fuel im p :
  frames_bound w fuel → 1 < fuel →
  frames_bound (mkWorld (<[p := ImageFile (im_size im) im []]> (w_files w))
                        (w_dirs w) (w_stdout w)) fuel.
Proof.
  intros Hb Hfuel. by apply map_Forall_insert_2.
Qed.

(** With enough fuel for every image file of the world, the builder always
    finishes; it prints its one line exactly when it returns. *)
Lemma convert_gif_to_spritesheet_total fuel gif_path output_dir w :
  frames_bound w fuel →
  ∃ o w',
    convert_gif_to_spritesheet fuel gif_path output_dir w = Some (o, w') ∧
    frames_bound w' fuel ∧
    w_stdout w' = w_stdout w ++
      match o with
      | Ok output_path => ["Created spritesheet: " +:+ output_path]
      | Raise _ => []
      end.
Proof.
  intros Hb. rewrite convert_gif_to_spritesheet_eq.
  destruct (Image_open gif_path w) as [gif|e] eqn:Hopen;
    [|exists (Raise e), w; by rewrite app_nil_r].
  destruct (Image_open_Ok _ _ _ Hopen) as (size & first & more & Hfile & ->).
  pose proof (Hb _ _ Hfile) as Hfuel. simpl in Hfuel. cbv zeta.
  set (dir := resolve_output_dir gif_path output_dir).
  assert (∃ r wa,
    (if os_path_exists w dir then (Ok (), w) else os_makedirs dir w) = (r, wa) ∧
    frames_bound wa fuel ∧ w_stdout wa = w_stdout w) as (r & wa & -> & Hba & Hout).
  { destruct (os_path_exists w dir); [by exists (Ok ()), w|].
    destruct (os_makedirs dir w) as [[[]|e] wa] eqn:Hmk.
    - apply os_makedirs_Ok in Hmk as (_ & _ & Hfiles & Hstd & _).
      exists (Ok ()), wa. split; [done|]. split; [|done].
      unfold frames_bound. by rewrite Hfiles.
    - apply os_makedirs_Raise in Hmk as ->. by exists (Raise e), w. }
  destruct r as [[]|e]; [|exists (Raise e), wa; by rewrite app_nil_r, Hout].
  destruct (build_spritesheet_Ok fuel (mkGif size (first :: more) 0))
    as (rows & sheet & _ & -> & _); [simpl; lia|done|].
  destruct (Image_save sheet _ wa) as [[[]|e] wb] eqn:Hsave.
  - apply Image_save_Ok in Hsave as ->.
    eexists _, _. split; [done|]. split; [|by rewrite <- Hout].
    simpl. apply frames_bound_saved; [done|lia].
  - apply Image_save_Raise in Hsave as ->.
    exists (Raise e), wa. by rewrite app_nil_r, Hout.
Qed.

End builder.

(** ** The batch driver *)

Section driver.

Implicit Types (w : world) (directory : string) (output_dir : option string).

Lemma count_ok_cons_Ok {A} (a : A) (results : list (outcome A)) :
  count_ok (Ok a :: results) = S (count_ok results).
Proof. done. Qed.

Lemma count_ok_cons_Raise {A} (e : exn) (results : list (outcome A)) :
  count_ok (Raise e :: results) = count_ok results.
Proof. done. Qed.

Lemma frames_bound_print w fuel line :
  frames_bound w fuel → frames_bound (print line w) fuel.
Proof. done. Qed.

(** The loop over the listing: it never raises and always reaches the end
    of the listing; every [.gif] name gets one outcome of the builder and
    one line of output; the tally grows by the number of outcomes that are
    returns. *)
Lemma process_files_spec fuel directory output_dir filenames processed w :
  frames_bound w fuel →
  ∃ results w',
    process_files fuel directory output_dir filenames processed w
    = Some (Ok (processed + count_ok results), w') ∧
    batch_run fuel directory output_dir w (gif_files filenames) results w' ∧
    w_stdout w' = w_stdout w ++ zip_with report (gif_files filenames) results ∧
    frames_bound w' fuel.
Proof.
  revert processed w.
  induction filenames as [|filename filenames IH]; intros processed w Hb.
  { exists [], w. simpl. rewrite Nat.add_0_r, app_nil_r.
    repeat split; [constructor|done]. }
  cbn [process_files]. unfold gif_files. rewrite filter_cons. fold (gif_files filenames).
  destruct (is_gif filename) eqn:Hgif; [|rewrite decide_False by done; by apply IH].
  rewrite decide_True by done.
  destruct (convert_gif_to_spritesheet_total fuel (os_path_join directory filename)
              output_dir w Hb) as (o & w1 & Hrun & Hb1 & Hout1).
  unfold mbind at 1, M_bind at 1, try_except, mbind, M_bind. rewrite Hrun.
  destruct o as [output_path|e].
  - cbn [mret M_ret].
    destruct (IH (processed + 1) w1 Hb1) as (results & w' & -> & Hres & Hout & Hb').
    exists (Ok output_path :: results), w'.
    rewrite count_ok_cons_Ok. split; [do 3 f_equal; lia|].
    split; [by econstructor|]. split; [|done].
    rewrite Hout, Hout1. cbn [zip_with report]. by rewrite <- app_assoc.
  - cbn [writes mret M_ret].
    set (line := "Error processing " +:+ filename +:+ ": " +:+ exn_str e).
    destruct (IH processed (print line w1) (frames_bound_print _ _ _ Hb1))
      as (results & w' & -> & Hres & Hout & Hb').
    exists (Raise e :: results), w'.
    rewrite count_ok_cons_Raise. split; [done|].
    split; [by econstructor|]. split; [|done].
    rewrite Hout. cbn [print w_stdout zip_with report]. rewrite Hout1, app_nil_r.
    by rewrite <- app_assoc.
Qed.

(** Lines 81-82 always finish, and touch neither a file nor the output. *)
Lemma ensure_output_dir_total output_dir w :
  ∃ r w0,
    ensure_output_dir output_dir w = Some (r, w0) ∧
    w_files w0 = w_files w ∧ w_stdout w0 = w_stdout w.
Proof.
  unfold ensure_output_dir.
  destruct output_dir as [d|]; [|by exists (Ok ()), w].
  case_bool_decide; [by exists (Ok ()), w|].
  unfold mbind, M_bind, reads, perform, mret, M_ret.
  destruct (os_path_exists w d); simpl; [by exists (Ok ()), w|].
  destruct (os_makedirs d w) as [[[]|e] w0] eqn:Hmk.
  - apply os_makedirs_Ok in Hmk as (_ & _ & ? & ? & _). by exists (Ok ()), w0.
  - apply os_makedirs_Raise in Hmk as ->. by exists (Raise e), w.
Qed.

(** [process_directory] with its sequencing written out. *)
Lemma process_directory_eq fuel directory output_dir w :
  process_directory fuel directory output_dir w =
  if os_path_exists w directory then
    match ensure_output_dir output_dir w with
    | None => None
    | Some (Raise e, w0) => Some (Raise e, w0)
    | Some (Ok _, w0) =>
        match os_listdir directory w0 with
        | Raise e => Some (Raise e, w0)
        | Ok filenames =>
            match process_files fuel directory output_dir filenames 0 w0 with
            | None => None
            | Some (Raise e, w') => Some (Raise e, w')
            | Some (Ok processed, w') =>
                Some (Ok (),
                      print ("Processed " +:+ pretty processed +:+ " GIF files") w')
            end
        end
    end
  else Some (Ok (), print ("Directory not found: " +:+ directory) w).
Proof.
  unfold process_directory, mbind, M_bind, reads, attempt, writes.
  destruct (os_path_exists w directory); simpl; [|done].
  by destruct (ensure_output_dir output_dir w) as [[[[]|e] w0]|].
Qed.

End driver.

(** * The claims *)

(** ** C1: every frame is in the canvas, pixel for pixel *)

(** C1.  For an animation of [N >= 1] frames, all of the size [(w, h)] of
    the animation, the builder returns a canvas in which every pixel
    [(dx, dy)] of frame [i] is found unchanged, alpha included, at
    [((i mod columns) * w + dx, (i div columns) * h + dy)]; and [paste]
    overwrites: inside the pasted box the destination holds the source pixel,
    whatever it held before. *)
Theorem frames_appear_in_canvas (fuel : nat) (gif : GifImageFile) :
  uniform_frames gif →
  1 ≤ length (gif_frames gif) →
  length (gif_frames gif) < fuel →
  let w := fst (gif_size gif) in
  let h := snd (gif_size gif) in
  let columns := math_ceil_sqrt (length (gif_frames gif)) in
  ∃ sheet,
    build_spritesheet fuel gif = Some (Ok sheet) ∧
    (∀ i frame dx dy,
       gif_frames gif !! i = Some frame → dx < w → dy < h →
       is_Some (getpixel frame (dx, dy)) ∧
       getpixel sheet ((i `mod` columns) * w + dx, (i `div` columns) * h + dy)
       = getpixel frame (dx, dy)) ∧
    (∀ dst src x y dx dy,
       im_wf src → dx < im_width src → dy < im_height src →
       is_Some (getpixel dst (x + dx, y + dy)) →
       getpixel (paste dst src (x, y)) (x + dx, y + dy) = getpixel src (dx, dy)).
Proof.
  intros Huni Hone Hfuel w h columns.
  destruct (build_spritesheet_composited fuel gif Huni Hone Hfuel)
    as (rows & sheet & Hlayout & Hrun & Hsize & Hpix).
  destruct (grid_layout_Ok _ Hone) as (rows' & Hlayout' & _ & Hcover & _).
  rewrite Hlayout in Hlayout'. injection Hlayout' as <-.
  pose proof (math_ceil_sqrt_pos _ Hone) as Hcols.
  fold w h columns in Hpix, Hcover, Hcols.
  exists sheet. split; [done|]. split; [|apply getpixel_paste_inside].
  intros i frame dx dy Hi Hdx Hdy.
  pose proof (lookup_lt_Some _ _ _ Hi) as Hlt.
  unfold uniform_frames in Huni. rewrite Forall_lookup in Huni.
  destruct (Huni _ _ Hi) as [Hwf Hfsize].
  destruct (getpixel_is_Some frame dx dy) as [p Hp]; [done|..].
  { unfold im_width. by rewrite Hfsize. }
  { unfold im_height. by rewrite Hfsize. }
  split; [by exists p|].
  pose proof (Nat.mod_upper_bound i columns) as Hmod.
  assert (i `div` columns < rows) as Hrow
    by (apply Nat.Div0.div_lt_upper_bound; lia).
  rewrite Hpix; simpl; [|nia|nia].
  rewrite (sheet_pixel_in_cell _ _ _ _ _ _ _ _ frame) by (done || lia).
  by rewrite Hp.
Qed.

Lemma frames_appear_in_canvas_witness :
  getpixel (bar 5) (1, 0) = Some (5, 0, 0, 128)%N ∧
  ∃ sheet,
    build_spritesheet 6 five_bars = Some (Ok sheet) ∧
    getpixel sheet (3, 1) = Some (5, 0, 0, 128)%N.
Proof.
  split; [reflexivity|].
  destruct (frames_appear_in_canvas 6 five_bars) as (sheet & Hrun & Hpix & _).
  - apply (bool_decide_unpack _). vm_compute. exact I.
  - simpl. lia.
  - simpl. lia.
  - exists sheet. split; [exact Hrun|].
    destruct (Hpix 4 (bar 5) 1 0) as [_ Heq].
    + reflexivity.
    + simpl. lia.
    + simpl. lia.
    + exact Heq.
Defined.

(** ** C3: the unused cells *)

(** C3.  Under the same conditions, every pixel of the canvas that lies in
    a cell whose index is [N] or more is the transparent pixel the canvas was
    created with; its alpha is 0. *)
Theorem unused_cells_stay_transparent (fuel : nat) (gif : GifImageFile) :
  uniform_frames gif →
  1 ≤ length (gif_frames gif) →
  length (gif_frames gif) < fuel →
  let w := fst (gif_size gif) in
  let h := snd (gif_size gif) in
  let columns := math_ceil_sqrt (length (gif_frames gif)) in
  ∃ rows sheet,
    grid_layout (length (gif_frames gif)) = Ok (columns, rows) ∧
    build_spritesheet fuel gif = Some (Ok sheet) ∧
    im_size sheet = (w * columns, h * rows) ∧
    ∀ px py,
      px < w * columns → py < h * rows →
      length (gif_frames gif) ≤ (py `div` h) * columns + px `div` w →
      getpixel sheet (px, py) = Some transparent ∧
      getpixel sheet (px, py)
      = getpixel (Image_new (w * columns, h * rows) transparent) (px, py) ∧
      alpha transparent = 0%N.
Proof.
  intros Huni Hone Hfuel w h columns.
  destruct (build_spritesheet_composited fuel gif Huni Hone Hfuel)
    as (rows & sheet & Hlayout & Hrun & Hsize & Hpix).
  exists rows, sheet. repeat split; try done.
  - rewrite Hpix by done. unfold sheet_pixel.
    by rewrite bool_decide_eq_false_2 by (fold w h columns; lia).
  - rewrite Hpix, getpixel_Image_new by done. unfold sheet_pixel.
    by rewrite bool_decide_eq_false_2 by (fold w h columns; lia).
Qed.

Lemma unused_cells_stay_transparent_witness :
  ∃ sheet,
    build_spritesheet 6 five_bars = Some (Ok sheet) ∧
    im_size sheet = (6, 2) ∧
    getpixel sheet (5, 1) = Some transparent.
Proof.
  destruct (unused_cells_stay_transparent 6 five_bars)
    as (rows & sheet & Hlayout & Hrun & Hsize & Hpix).
  - apply (bool_decide_unpack _). vm_compute. exact I.
  - simpl. lia.
  - simpl. lia.
  - injection Hlayout as <-.
    exists sheet. split; [exact Hrun|]. split; [exact Hsize|].
    apply (Hpix 5 1); simpl; lia.
Defined.

(** ** C2: the grid *)

(** C2.  For every frame count [N >= 1] the layout is computed without
    error; [columns] is the least integer whose square reaches [N], that is
    the ceiling of the square root of [N]; [rows] is the least integer with
    [rows * columns >= N], that is the ceiling of [N / columns]; and the grid
    has room for all frames. *)
Theorem grid_layout_correct (N : nat) :
  1 ≤ N →
  ∃ columns rows,
    grid_layout N = Ok (columns, rows) ∧
    (N ≤ columns * columns ∧ ∀ c, N ≤ c * c → columns ≤ c) ∧
    (N ≤ rows * columns ∧ ∀ r, N ≤ r * columns → rows ≤ r) ∧
    N ≤ columns * rows.
Proof.
  intros HN.
  destruct (grid_layout_Ok N HN) as (rows & Hlayout & _ & Hcover & Hleast).
  exists (math_ceil_sqrt N), rows. split; [done|]. split; [|split; [done|lia]].
  split; [apply math_ceil_sqrt_upper|apply math_ceil_sqrt_least].
Qed.

Lemma grid_layout_correct_witness :
  1 ≤ 5 ∧ ∃ columns rows, grid_layout 5 = Ok (columns, rows) ∧ 5 ≤ columns * rows.
Proof.
  split; [lia|].
  destruct (grid_layout_correct 5) as (columns & rows & Hlayout & _ & _ & Hroom); [lia|].
  exists columns, rows. split; [exact Hlayout|exact Hroom].
Defined.

(** ** C4: no frame at all *)

(** C4 as the specification states it fails: with a frame count of 0 the
    layout is not [(0, 0)], and the builder does not get as far as the
    canvas. *)
Lemma zero_frames_no_canvas :
  grid_layout 0 ≠ Ok (0, 0) ∧
  build_spritesheet 1 no_frames
  = Some (Raise (Exn ZeroDivisionError "division by zero")).
Proof. split; [discriminate|reflexivity]. Qed.

(** C4, amended.  When the frame count is 0, [columns] is 0 and computing
    [rows] raises [ZeroDivisionError]; the builder raises it before any
    canvas is allocated. *)
Theorem zero_frames_raise (fuel : nat) (gif : GifImageFile) :
  gif_frames gif = [] →
  0 < fuel →
  math_ceil_sqrt 0 = 0 ∧
  grid_layout 0 = Raise (Exn ZeroDivisionError "division by zero") ∧
  count_frames fuel gif 0 = Some (Ok (gif, 0)) ∧
  build_spritesheet fuel gif
  = Some (Raise (Exn ZeroDivisionError "division by zero")).
Proof.
  intros Hnil Hfuel. destruct fuel as [|fuel]; [lia|].
  assert (count_frames (S fuel) gif 0 = Some (Ok (gif, 0))) as Hcount.
  { simpl. by rewrite seek_EOF by (rewrite Hnil; simpl; lia). }
  repeat split; [done|].
  unfold build_spritesheet. rewrite Hcount. by destruct (gif_size gif).
Qed.

Lemma zero_frames_raise_witness :
  build_spritesheet 3 no_frames
  = Some (Raise (Exn ZeroDivisionError "division by zero")).
Proof.
  destruct (zero_frames_raise 3 no_frames) as (_ & _ & _ & Hrun).
  - reflexivity.
  - lia.
  - exact Hrun.
Defined.

(** ** C5: counting the frames *)

(** C5.  Started at index 0, the scan returns the number [N] of frames of
    the source: every seek to an index below [N] succeeded, the seek to [N]
    raised [EOFError], and the scan has finished as soon as the fuel exceeds
    [N], so it terminates on every source with finitely many frames. *)
Theorem count_frames_correct (fuel : nat) (gif : GifImageFile) :
  length (gif_frames gif) < fuel →
  let N := length (gif_frames gif) in
  ∃ gif',
    count_frames fuel gif 0 = Some (Ok (gif', N)) ∧
    gif_frames gif' = gif_frames gif ∧
    (∀ i, i < N → ∃ g, seek gif i = Ok g ∧ gif_tell g = i) ∧
    (∃ e, seek gif N = Raise e ∧ exn_type e = EOFError).
Proof.
  intros Hfuel N.
  destruct (count_frames_from fuel gif 0) as (gif' & Hcount & _ & Hframes); [lia..|].
  exists gif'. split; [done|]. split; [done|]. split.
  - intros i Hi. eexists. by rewrite seek_Ok.
  - eexists. by rewrite seek_EOF.
Qed.

Lemma count_frames_correct_witness :
  ∃ gif', count_frames 6 five_bars 0 = Some (Ok (gif', 5)).
Proof.
  destruct (count_frames_correct 6 five_bars) as (gif' & Hcount & _).
  - simpl. lia.
  - exists gif'. exact Hcount.
Defined.

(** ** C9: an opened file has a frame *)



(** ** C10: a bare file name and no output directory *)

(** C10.  When the source path has no directory part, the file opens as an
    image and no output directory is given, the directory the builder
    resolves is the empty string, which does not exist; [os.makedirs] of it
    raises [FileNotFoundError], the builder raises it too, and nothing is
    written. *)
Theorem bare_filename_raises (fuel : nat) (gif_path : string) (w : world)
    (gif : GifImageFile) :
  Image_open gif_path w = Ok gif →
  Str.rfind1 "/" gif_path = 0 →
  resolve_output_dir gif_path None = EmptyString ∧
  os_path_exists w EmptyString = false ∧
  convert_gif_to_spritesheet fuel gif_path None w
  = Some (Raise (Exn FileNotFoundError "[Errno 2] No such file or directory: ''"), w).
Proof.
  intros Hopen Hbare. split; [by apply dirname_bare|]. split; [done|].
  rewrite convert_gif_to_spritesheet_eq, Hopen. cbv zeta.
  unfold resolve_output_dir. by rewrite dirname_bare by done.
Qed.

Lemma bare_filename_raises_witness :
  convert_gif_to_spritesheet 3 "walk.gif" None cwd_world
  = Some (Raise (Exn FileNotFoundError "[Errno 2] No such file or directory: ''"),
          cwd_world).
Proof.
  destruct (bare_filename_raises 3 "walk.gif" cwd_world
              (mkGif (1, 1) [dot 1; dot 2] 0)) as (_ & _ & Hrun).
  - reflexivity.
  - reflexivity.
  - exact Hrun.
Defined.

(** ** C8: building twice *)

(** What exists keeps existing when directories and files are only added. *)
Lemma os_path_exists_mono (w w' : world) (p : string) :
  w_dirs w ⊆ w_dirs w' →
  (∀ q, is_Some (w_files w !! q) → is_Some (w_files w' !! q)) →
  os_path_exists w p = true → os_path_exists w' p = true.
Proof.
  intros Hdirs Hfiles. unfold os_path_exists, is_dir, is_file, read_file.
  intros [Hd|Hf]%orb_true_iff; apply orb_true_iff; [left|right].
  - apply andb_true_iff in Hd as [Hne Hin%bool_decide_eq_true].
    apply andb_true_iff. split; [done|]. apply bool_decide_eq_true. set_solver.
  - apply bool_decide_eq_true in Hf. apply bool_decide_eq_true.
    case_decide; [done|]. by apply Hfiles.
Qed.

(** C8.  When the builder has returned [out], running it again on the same
    arguments returns [out] again and leaves every file and every directory
    as the first run left them: the file at [out], which is
    [{baseNameWithoutExtension}_spritesheet.png] in the resolved output
    directory, is written over with the same content, without an error; the
    second run only prints its line once more. *)
Theorem rebuild_is_idempotent (fuel : nat) (gif_path : string)
    (output_dir : option string) (w w1 : world) (out : string) :
  convert_gif_to_spritesheet fuel gif_path output_dir w = Some (Ok out, w1) →
  out = os_path_join (resolve_output_dir gif_path output_dir)
          (fst (os_path_splitext (os_path_basename gif_path)) +:+ "_spritesheet.png") ∧
  (∃ sheet, w_files w1 !! out = Some (ImageFile (im_size sheet) sheet [])) ∧
  convert_gif_to_spritesheet fuel gif_path output_dir w1
  = Some (Ok out, print ("Created spritesheet: " +:+ out) w1).
Proof.
  rewrite !convert_gif_to_spritesheet_eq.
  destruct (Image_open gif_path w) as [gif|e] eqn:Hopen; [|done]. cbv zeta.
  set (dir := resolve_output_dir gif_path output_dir).
  set (path := output_path_of gif_path output_dir).
  destruct (if os_path_exists w dir then (Ok (), w) else os_makedirs dir w)
    as [[[]|e] wa] eqn:Hdir; [|done].
  destruct (build_spritesheet fuel gif) as [[sheet|e]|] eqn:Hbuild; try done.
  destruct (Image_save sheet path wa) as [[[]|e] wb] eqn:Hsave; [|done].
  intros [= <- <-].
  pose proof (Image_save_Ok _ _ _ _ _ Hsave) as ->.
  (* what the world after the first run has in common with the one before *)
  assert (w_files wa = w_files w ∧ w_dirs w ⊆ w_dirs wa ∧
          os_path_exists wa dir = true) as (Hfiles & Hdirs & Hexists).
  { destruct (os_path_exists w dir) eqn:Hex.
    - by injection Hdir as <-.
    - apply os_makedirs_Ok in Hdir as (_ & Hisdir & ? & _ & ?).
      repeat split; [done..|]. unfold os_path_exists. by rewrite Hisdir. }
  split; [done|]. split; [exists sheet; simpl; by rewrite lookup_insert_eq|].
  set (w1 := print _ _).
  (* the second run opens the same image *)
  assert (Image_open gif_path w1 = Ok gif) as ->.
  { rewrite <- Hopen. apply Image_open_agree; [|by rewrite Hopen].
    simpl. rewrite lookup_insert_ne, Hfiles; [done|].
    apply output_path_fresh. }
  (* the output directory is there *)
  assert (os_path_exists w1 dir = true) as ->.
  { apply (os_path_exists_mono wa); [done| |done].
    intros q Hq. simpl. destruct (decide (path = q)) as [->|?].
    - by rewrite lookup_insert_eq.
    - by rewrite lookup_insert_ne. }
  rewrite Hbuild.
  (* the same image is saved over the same file *)
  rewrite (Image_save_dirs sheet path wa w1) by (done || by rewrite Hsave).
  simpl. by rewrite insert_insert_eq.
Qed.

Lemma rebuild_is_idempotent_witness :
  convert_gif_to_spritesheet 3 "sprites/jump.gif" None built_once
  = Some (Ok "sprites/jump_spritesheet.png",
          print "Created spritesheet: sprites/jump_spritesheet.png" built_once).
Proof.
  destruct (rebuild_is_idempotent 3 "sprites/jump.gif" None sprites_world
              built_once "sprites/jump_spritesheet.png") as (_ & _ & Hagain).
  - vm_compute. reflexivity.
  - exact Hagain.
Defined.

(** ** C7: the batch driver is the error boundary *)

(** C7.  When the input directory exists, the output directory is in place
    and the listing succeeds, [process_directory] returns: no error of the
    builder leaves it.  Every [.gif] name of the listing gets an outcome of
    the builder, in listing order; a raised error puts the diagnostic
    [Error processing {filename}: {e}] on the output and adds nothing to the
    tally, a return puts the builder's line there and adds one; the last line
    is the summary with the tally.  On a directory with three good
    animations, a corrupt one and a text file, three PNG files are written
    and the summary is [Processed 3 GIF files]. *)
Theorem batch_driver_catches_and_reports :
  (∀ (fuel : nat) (directory : string) (output_dir : option string)
     (w w0 : world) (filenames : list string),
     frames_bound w fuel →
     os_path_exists w directory = true →
     ensure_output_dir output_dir w = Some (Ok (), w0) →
     os_listdir directory w0 = Ok filenames →
     ∃ results w1 w',
       process_directory fuel directory output_dir w = Some (Ok (), w') ∧
       batch_run fuel directory output_dir w0 (gif_files filenames) results w1 ∧
       w' = print ("Processed " +:+ pretty (count_ok results) +:+ " GIF files") w1 ∧
       w_stdout w' = w_stdout w
         ++ zip_with report (gif_files filenames) results
         ++ ["Processed " +:+ pretty (count_ok results) +:+ " GIF files"]) ∧
  (∃ w',
     process_directory 6 "sprites" None sprites_world = Some (Ok (), w') ∧
     w_stdout w' =
       ["Created spritesheet: sprites/walk_spritesheet.png";
        "Created spritesheet: sprites/IDLE_spritesheet.png";
        "Created spritesheet: sprites/jump_spritesheet.png";
        "Error processing broken.gif: cannot identify image file 'sprites/broken.gif'";
        "Processed 3 GIF files"] ∧
     dom (w_files w') = dom (w_files sprites_world) ∪
       {["sprites/walk_spritesheet.png"; "sprites/jump_spritesheet.png";
         "sprites/IDLE_spritesheet.png"]} ∧
     size (w_files w') = size (w_files sprites_world) + 3).
Proof.
  split.
  - intros fuel directory output_dir w w0 filenames Hb Hex Hens Hls.
    destruct (ensure_output_dir_total output_dir w) as (r & w0' & Hens' & Hfiles & Hout).
    rewrite Hens in Hens'. injection Hens' as <- <-.
    assert (frames_bound w0 fuel) as Hb0.
    { unfold frames_bound. by rewrite Hfiles. }
    destruct (process_files_spec fuel directory output_dir filenames 0 w0 Hb0)
      as (results & w1 & Hrun & Hres & Hstd & _).
    eexists results, w1, _. rewrite process_directory_eq, Hex, Hens, Hls, Hrun.
    split; [done|]. split; [done|]. split; [done|].
    cbn [print w_stdout]. by rewrite Hstd, Hout, <- app_assoc.
  - eexists. split; [vm_compute; reflexivity|].
    split; [reflexivity|]. split; [|reflexivity].
    apply (bool_decide_unpack _). vm_compute. exact I.
Qed.

Lemma batch_driver_catches_and_reports_witness :
  ∃ results w1 w',
    process_directory 6 "sprites" None sprites_world = Some (Ok (), w') ∧
    batch_run 6 "sprites" None sprites_world
      (gif_files ["walk.gif"; "IDLE.GIF"; "jump.gif"; "readme.txt"; "broken.gif"])
      results w1 ∧
    w' = print ("Processed " +:+ pretty (count_ok results) +:+ " GIF files") w1 ∧
    w_stdout w' = w_stdout sprites_world
      ++ zip_with report
           (gif_files ["walk.gif"; "IDLE.GIF"; "jump.gif"; "readme.txt"; "broken.gif"])
           results
      ++ ["Processed " +:+ pretty (count_ok results) +:+ " GIF files"].
Proof.
  apply (proj1 batch_driver_catches_and_reports 6 "sprites" None
           sprites_world sprites_world).
  - apply (bool_decide_unpack _). vm_compute. exact I.
  - reflexivity.
  - reflexivity.
  - vm_compute. reflexivity.
Defined.

(** ** C6: the exit status *)

(** C6 as the specification states it fails: the input directory does not
    exist, and the process exits with status 0. *)
Lemma missing_directory_exits_zero :
  os_path_exists sprites_world "missing" = false ∧
  main 1 "missing" None sprites_world
  = Some (0, print "Directory not found: missing" sprites_world).
Proof. split; reflexivity. Qed.

(** C6, amended.  For a command line that [argparse] accepted: the process
    exits with status 0 when the input directory does not exist, after
    printing [Directory not found: ...] and nothing else; it exits with
    status 1 on a fatal top-level failure, that is when creating the output
    directory or listing the input directory raises; and it exits with status
    0 when the directory is listed and the batch runs, whatever the outcomes
    of the individual files in it. *)
Theorem exit_status (fuel : nat) (input_dir : string)
    (output_dir : option string) (w : world) :
  frames_bound w fuel →
  ∃ code w',
    main fuel input_dir output_dir w = Some (code, w') ∧
    (os_path_exists w input_dir = false →
     code = 0 ∧ w' = print ("Directory not found: " +:+ input_dir) w) ∧
    (os_path_exists w input_dir = true →
     (∃ e w0, ensure_output_dir output_dir w = Some (Raise e, w0)) ∨
     (∃ e w0, ensure_output_dir output_dir w = Some (Ok (), w0) ∧
              os_listdir input_dir w0 = Raise e) →
     code = 1) ∧
    (∀ w0 filenames,
       os_path_exists w input_dir = true →
       ensure_output_dir output_dir w = Some (Ok (), w0) →
       os_listdir input_dir w0 = Ok filenames →
       code = 0 ∧
       ∃ results w1,
         batch_run fuel input_dir output_dir w0 (gif_files filenames) results w1 ∧
         w' = print ("Processed " +:+ pretty (count_ok results) +:+ " GIF files") w1).
Proof.
  intros Hb. unfold main. rewrite process_directory_eq.
  destruct (os_path_exists w input_dir) eqn:Hex.
  2: { eexists 0, _. split; [done|]. split; [done|]. split; by intros. }
  destruct (ensure_output_dir_total output_dir w) as (r & w0 & Hens & Hfiles & Hout).
  rewrite Hens. destruct r as [[]|e].
  2: { exists 1, w0. split; [done|]. split; [done|]. split; [done|].
       by intros w0' filenames _ [=]. }
  assert (frames_bound w0 fuel) as Hb0 by (unfold frames_bound; by rewrite Hfiles).
  destruct (os_listdir input_dir w0) as [filenames|e] eqn:Hls.
  2: { exists 1, w0. split; [done|]. split; [done|]. split; [done|].
       intros w0' filenames _ [= <-]. by rewrite Hls. }
  destruct (process_files_spec fuel input_dir output_dir filenames 0 w0 Hb0)
    as (results & w1 & -> & Hrun & _).
  eexists 0, _. split; [done|]. split; [done|]. split.
  { intros _ [(e & w0' & [=])|(e & w0' & [= <-] & Hls')].
    by rewrite Hls in Hls'. }
  intros w0' filenames' _ [= <-] Hls'. rewrite Hls in Hls'.
  injection Hls' as <-. split; [done|]. by exists results, w1.
Qed.

Lemma exit_status_witness :
  ∃ w', main 6 "sprites" None sprites_world = Some (0, w').
Proof.
  destruct (exit_status 6 "sprites" None sprites_world)
    as (code & w' & Hrun & _ & _ & Hbatch).
  - apply (bool_decide_unpack _). vm_compute. exact I.
  - exists w'. rewrite Hrun.
    destruct (Hbatch sprites_world
                ["walk.gif"; "IDLE.GIF"; "jump.gif"; "readme.txt"; "broken.gif"])
      as [-> _].
    + reflexivity.
    + reflexivity.
    + vm_compute. reflexivity.
    + reflexivity.
Defined.

(** * Further properties of the program *)

(** ** The shape of the grid (lines 42-45) *)

(** X1.  The grid is as square as the comment on line 43 asks for: there
    are as many rows as columns or one fewer, and fewer than one row of
    cells stays unused. *)
Theorem grid_is_near_square (N : nat) :
  1 ≤ N →
  ∃ cols rows,
    grid_layout N = Ok (cols, rows) ∧
    rows ≤ cols ∧ cols ≤ rows + 1 ∧ cols * rows < N + cols.
Proof.
  intros HN.
  destruct (grid_layout_Ok N HN) as (rows & Hlayout & Hrows & Hcover & Hleast).
  pose proof (math_ceil_sqrt_upper N) as Hup.
  pose proof (math_ceil_sqrt_pos N HN) as Hpos.
  set (cols := math_ceil_sqrt N) in *.
  assert ((cols - 1) * (cols - 1) < N) as Hlow.
  { destruct (decide ((cols - 1) * (cols - 1) < N)) as [|Hge]; [done|].
    pose proof (math_ceil_sqrt_least N (cols - 1)) as Hl. fold cols in Hl. lia. }
  assert ((rows - 1) * cols < N) as Hlast.
  { destruct (decide ((rows - 1) * cols < N)) as [|Hge]; [done|].
    pose proof (Hleast (rows - 1)). lia. }
  exists cols, rows. split; [done|].
  split; [apply Hleast; lia|]. split; nia.
Qed.

Lemma grid_is_near_square_witness :
  1 ≤ 7 ∧ ∃ cols rows, grid_layout 7 = Ok (cols, rows) ∧ rows ≤ cols.
Proof.
  split; [lia|].
  destruct (grid_is_near_square 7) as (cols & rows & Hlayout & Hle & _); [lia|].
  exists cols, rows. split; [exact Hlayout|exact Hle].
Defined.

(** ** Where the frames go (lines 56-57) *)

(** X2.  The box of every frame lies inside the canvas, so [paste] never
    clips a frame of the animation's size, and the boxes of two different
    frames have no pixel in common. *)
Theorem cells_inside_and_disjoint (N width height cols rows i j px py : nat) :
  grid_layout N = Ok (cols, rows) →
  i < N → j < N → 0 < width → 0 < height →
  let x k := (k `mod` cols) * width in
  let y k := (k `div` cols) * height in
  (x i + width ≤ width * cols ∧ y i + height ≤ height * rows) ∧
  ((x i ≤ px < x i + width ∧ y i ≤ py < y i + height) →
   (x j ≤ px < x j + width ∧ y j ≤ py < y j + height) →
   i = j).
Proof.
  intros Hlayout Hi Hj Hw Hh x y.
  destruct (grid_layout_Ok N) as (rows' & Hlayout' & _ & Hcover & _); [lia|].
  rewrite Hlayout in Hlayout'. injection Hlayout' as -> <-.
  pose proof (math_ceil_sqrt_pos N) as Hpos.
  set (cols := math_ceil_sqrt N) in *.
  split.
  - pose proof (Nat.mod_upper_bound i cols).
    assert (i `div` cols < rows) by (apply Nat.Div0.div_lt_upper_bound; lia).
    unfold x, y. nia.
  - unfold x, y. intros [Hxi Hyi] [Hxj Hyj].
    apply cell_of_pixel in Hxi, Hyi, Hxj, Hyj; try done.
    assert (i `mod` cols = j `mod` cols) as Hmod by congruence.
    assert (i `div` cols = j `div` cols) as Hdiv by congruence.
    rewrite (Nat.div_mod_eq i cols), (Nat.div_mod_eq j cols). by rewrite Hmod, Hdiv.
Qed.

Lemma cells_inside_and_disjoint_witness :
  (4 `mod` 3) * 2 + 2 ≤ 2 * 3 ∧ (4 `div` 3) * 1 + 1 ≤ 1 * 2.
Proof.
  destruct (cells_inside_and_disjoint 5 2 1 3 2 4 3 0 0) as [Hin _].
  - reflexivity.
  - lia.
  - lia.
  - lia.
  - lia.
  - exact Hin.
Defined.

(** ** The canvas, whatever the frames (lines 48-59) *)

Lemma paste_frames_wf (width height cols : nat) (range : list nat)
    (gif gif' : GifImageFile) (sheet sheet' : Image) :
  paste_frames width height cols (gif, sheet) range = Ok (gif', sheet') →
  im_wf sheet → im_wf sheet' ∧ im_size sheet' = im_size sheet.
Proof.
  revert gif sheet. induction range as [|frame range IH]; intros gif sheet.
  { by intros [= <- <-]. }
  cbn [paste_frames]. unfold paste_frame.
  destruct (seek gif frame) as [gif1|e]; [|done].
  destruct (convert_RGBA gif1) as [frame_img|e]; [|done].
  destruct (py_divmod frame cols) as [[q r]|e]; [|done].
  intros Hrun Hwf. apply IH in Hrun as [Hwf' Hsize]; [|by apply paste_wf].
  by rewrite Hsize, paste_size.
Qed.

(** X3.  The builder does not look at the sizes of the frames: on every
    animation with at least one frame it returns a canvas, and the canvas
    is a full image of [width * cols] by [height * rows] pixels. *)
Theorem canvas_has_grid_size (fuel : nat) (gif : GifImageFile) :
  1 ≤ length (gif_frames gif) →
  length (gif_frames gif) < fuel →
  ∃ cols rows sheet,
    grid_layout (length (gif_frames gif)) = Ok (cols, rows) ∧
    build_spritesheet fuel gif = Some (Ok sheet) ∧
    im_size sheet = (fst (gif_size gif) * cols, snd (gif_size gif) * rows) ∧
    im_wf sheet ∧
    ∀ px py,
      is_Some (getpixel sheet (px, py)) ↔
      px < fst (gif_size gif) * cols ∧ py < snd (gif_size gif) * rows.
Proof.
  intros Hone Hfuel.
  destruct (build_spritesheet_Ok fuel gif Hone Hfuel)
    as (rows & sheet & Hlayout & Hrun & Hsize).
  assert (im_wf sheet) as Hwf.
  { unfold build_spritesheet in Hrun. destruct (gif_size gif) as [width height].
    destruct (count_frames fuel gif 0) as [[[gif1 frames]|e]|]; try done.
    destruct (grid_layout frames) as [[cols rows']|e]; [|done].
    destruct (paste_frames _ _ _ _ _) as [[gif2 sheet2]|e] eqn:Hpaste; [|done].
    injection Hrun as ->.
    by apply paste_frames_wf in Hpaste as [? _]; [|apply Image_new_wf]. }
  exists (math_ceil_sqrt (length (gif_frames gif))), rows, sheet.
  split; [done|]. split; [done|]. split; [done|]. split; [done|].
  intros px py. split.
  - intros [p Hp]. apply getpixel_Some_lt in Hp as [Hx Hy]; [|done].
    unfold im_width, im_height in *. by rewrite Hsize in Hx, Hy.
  - intros [Hx Hy]. apply getpixel_is_Some; [done|..].
    + unfold im_width. by rewrite Hsize.
    + unfold im_height. by rewrite Hsize.
Qed.

Lemma canvas_has_grid_size_witness :
  ∃ sheet,
    build_spritesheet 3 (mkGif (4, 4) [dot 1; bar 2] 0) = Some (Ok sheet) ∧
    im_size sheet = (8, 4).
Proof.
  destruct (canvas_has_grid_size 3 (mkGif (4, 4) [dot 1; bar 2] 0))
    as (cols & rows & sheet & Hlayout & Hrun & Hsize & _).
  - simpl. lia.
  - simpl. lia.
  - injection Hlayout as <- <-. exists sheet. split; [exact Hrun|exact Hsize].
Defined.

(** X4.  An image with a single frame of its own size comes out as it is:
    the canvas is that frame. *)
Theorem single_frame_is_copied (fuel : nat) (size : nat * nat) (frame : Image) :
  im_wf frame → im_size frame = size → 1 < fuel →
  build_spritesheet fuel (mkGif size [frame] 0) = Some (Ok frame).
Proof.
  intros [Hh Hw] Hsize Hfuel.
  destruct fuel as [|[|fuel]]; [lia..|].
  destruct frame as [fsize rows]. simpl in *. subst fsize.
  destruct size as [width height]. unfold im_height, im_width in *. simpl in *.
  unfold build_spritesheet. simpl. do 2 f_equal. unfold paste, Image_new. simpl.
  rewrite !Nat.mul_1_r. f_equal.
  apply list_eq. intros py. rewrite list_lookup_imap.
  destruct (decide (py < height)) as [Hpy|Hpy].
  - rewrite lookup_replicate_2 by done. simpl.
    destruct (lookup_lt_is_Some_2 rows py) as [row Hrow]; [lia|].
    rewrite Hrow. f_equal.
    rewrite Forall_lookup in Hw. pose proof (Hw _ _ Hrow) as Hlen.
    apply list_eq. intros px. rewrite list_lookup_imap.
    destruct (decide (px < width)) as [Hpx|Hpx].
    + rewrite lookup_replicate_2 by done. simpl.
      rewrite bool_decide_eq_true_2 by (unfold im_width, im_height; simpl; lia).
      unfold getpixel. simpl. rewrite !Nat.sub_0_r, Hrow. simpl.
      destruct (lookup_lt_is_Some_2 row px) as [p Hp]; [lia|]. by rewrite Hp.
    + rewrite (proj1 (lookup_replicate_None _ _ _)) by lia. simpl. symmetry.
      apply lookup_ge_None. lia.
  - rewrite (proj1 (lookup_replicate_None _ _ _)) by lia. simpl. symmetry.
    apply lookup_ge_None. lia.
Qed.

Lemma single_frame_is_copied_witness :
  build_spritesheet 2 (mkGif (2, 1) [bar 9] 0) = Some (Ok (bar 9)).
Proof.
  apply (single_frame_is_copied 2 (2, 1) (bar 9)).
  - apply (bool_decide_unpack _). vm_compute. exact I.
  - reflexivity.
  - lia.
Defined.

(** ** What a run of the builder changes (lines 18-66) *)

(** X5.  Whatever the builder does, the only file it writes is its output
    path: every other file, the source among them, is as before, and no
    directory disappears.  When it raises, no file has changed and nothing
    has been printed; when it returns, the output path holds a file. *)
Theorem builder_changes_only_its_output (fuel : nat) (gif_path : string)
    (output_dir : option string) (w w' : world) (o : outcome string) :
  convert_gif_to_spritesheet fuel gif_path output_dir w = Some (o, w') →
  (∀ q, q ≠ output_path_of gif_path output_dir →
        w_files w' !! q = w_files w !! q) ∧
  w_files w' !! gif_path = w_files w !! gif_path ∧
  w_dirs w ⊆ w_dirs w' ∧
  (is_Ok o = false → w_files w' = w_files w ∧ w_stdout w' = w_stdout w) ∧
  (is_Ok o = true →
   o = Ok (output_path_of gif_path output_dir) ∧
   is_Some (w_files w' !! output_path_of gif_path output_dir)).
Proof.
  rewrite convert_gif_to_spritesheet_eq.
  destruct (Image_open gif_path w) as [gif|e] eqn:Hopen.
  2: { intros [= <- <-]. by repeat split. }
  cbv zeta. set (dir := resolve_output_dir gif_path output_dir).
  set (path := output_path_of gif_path output_dir).
  assert (path ≠ gif_path) as Hfresh by apply output_path_fresh.
  destruct (if os_path_exists w dir then (Ok (), w) else os_makedirs dir w)
    as [r wa] eqn:Hdir.
  assert (w_files wa = w_files w ∧ w_dirs w ⊆ w_dirs wa ∧
          w_stdout wa = w_stdout w) as (Hfiles & Hdirs & Hout).
  { destruct (os_path_exists w dir); [by injection Hdir as <- <-|].
    destruct r as [[]|e].
    - by apply os_makedirs_Ok in Hdir as (_ & _ & ? & ? & ?).
    - by apply os_makedirs_Raise in Hdir as ->. }
  destruct r as [[]|e].
  2: { intros [= <- <-]. rewrite Hfiles. by repeat split. }
  destruct (build_spritesheet fuel gif) as [[sheet|e]|]; [| |done].
  2: { intros [= <- <-]. rewrite Hfiles. by repeat split. }
  destruct (Image_save sheet path wa) as [[[]|e] wb] eqn:Hsave.
  - apply Image_save_Ok in Hsave as ->. intros [= <- <-]. simpl.
    split; [intros q Hq; by rewrite lookup_insert_ne, Hfiles|].
    split; [by rewrite lookup_insert_ne, Hfiles|].
    split; [done|]. split; [done|]. intros _.
    split; [done|]. by rewrite lookup_insert_eq.
  - apply Image_save_Raise in Hsave as ->. intros [= <- <-].
    rewrite Hfiles. by repeat split.
Qed.

Lemma builder_changes_only_its_output_witness :
  w_files built_once !! "sprites/jump.gif"
  = w_files sprites_world !! "sprites/jump.gif" ∧
  w_files built_once !! "sprites/walk.gif"
  = w_files sprites_world !! "sprites/walk.gif".
Proof.
  destruct (builder_changes_only_its_output 3 "sprites/jump.gif" None
              sprites_world built_once (Ok "sprites/jump_spritesheet.png"))
    as (Hother & Hsource & _).
  - vm_compute. reflexivity.
  - split; [exact Hsource|]. apply Hother. vm_compute. discriminate.
Defined.

(** ** Edge cases of the batch driver (lines 76-97) *)

Lemma process_files_no_gif (fuel : nat) (directory : string)
    (output_dir : option string) (filenames : list string) (processed : nat)
    (w : world) :
  gif_files filenames = [] →
  process_files fuel directory output_dir filenames processed w
  = Some (Ok processed, w).
Proof.
  induction filenames as [|filename filenames IH]; [done|].
  unfold gif_files. rewrite filter_cons. cbn [process_files].
  destruct (is_gif filename); [by rewrite decide_True|].
  rewrite decide_False by done. apply IH.
Qed.

(** X6.  When the listing of the input directory has no name ending in
    [.gif], upper or lower case, nothing is opened or written: the run only
    prints [Processed 0 GIF files], whatever fuel it has. *)
Theorem no_gif_files_only_summary (fuel : nat) (directory : string)
    (output_dir : option string) (w w0 : world) (filenames : list string) :
  os_path_exists w directory = true →
  ensure_output_dir output_dir w = Some (Ok (), w0) →
  os_listdir directory w0 = Ok filenames →
  gif_files filenames = [] →
  process_directory fuel directory output_dir w
  = Some (Ok (), print "Processed 0 GIF files" w0) ∧
  main fuel directory output_dir w = Some (0, print "Processed 0 GIF files" w0).
Proof.
  intros Hex Hens Hls Hnone. unfold main.
  rewrite process_directory_eq, Hex, Hens, Hls, process_files_no_gif by done.
  done.
Qed.

Lemma no_gif_files_only_summary_witness :
  main 0 "docs" None
    (mkWorld {["docs/readme.txt" := OtherFile]} {["docs"]} [])
  = Some (0, print "Processed 0 GIF files"
               (mkWorld {["docs/readme.txt" := OtherFile]} {["docs"]} [])).
Proof.
  apply (no_gif_files_only_summary 0 "docs" None
           (mkWorld {["docs/readme.txt" := OtherFile]} {["docs"]} [])
           (mkWorld {["docs/readme.txt" := OtherFile]} {["docs"]} [])
           ["readme.txt"]).
  - reflexivity.
  - reflexivity.
  - vm_compute. reflexivity.
  - reflexivity.
Defined.

(** X7.  When the input path is a regular file, [os.path.exists] lets it
    through and [os.listdir] raises: the process prints nothing and exits
    with status 1, instead of reporting a missing directory. *)
Theorem input_file_exits_one (fuel : nat) (input_dir : string) (w : world) :
  is_file w input_dir = true →
  is_dir w input_dir = false →
  main fuel input_dir None w = Some (1, w) ∧
  ∃ e, process_directory fuel input_dir None w = Some (Raise e, w) ∧
       exn_type e = NotADirectoryError.
Proof.
  intros Hfile Hdir. unfold main. rewrite process_directory_eq.
  unfold os_path_exists. rewrite Hfile, Hdir. cbn [orb ensure_output_dir mret M_ret].
  unfold os_listdir. rewrite Hfile, Hdir.
  split; [done|]. by eexists.
Qed.

Lemma input_file_exits_one_witness :
  main 3 "sprites/walk.gif" None sprites_world = Some (1, sprites_world).
Proof.
  destruct (input_file_exits_one 3 "sprites/walk.gif" sprites_world) as [Hmain _].
  - reflexivity.
  - reflexivity.
  - exact Hmain.
Defined.

(** ** An empty output directory (lines 25-28 and 81) *)

Lemma Image_open_same (p : string) (w1 w2 : world) :
  w_files w1 = w_files w2 → w_dirs w1 = w_dirs w2 →
  Image_open p w1 = Image_open p w2.
Proof.
  intros Hfiles Hdirs. unfold Image_open, read_file, is_dir.
  by rewrite Hfiles, Hdirs.
Qed.

(** The error a file meets when the output directory is the empty string:
    the one of [Image.open], or else the one of [os.makedirs]. *)
Lemma convert_empty_output_dir (fuel : nat) (gif_path : string) (w : world) :
  convert_gif_to_spritesheet fuel gif_path (Some EmptyString) w
  = Some (Raise match Image_open gif_path w with
                | Raise e => e
                | Ok _ => Exn FileNotFoundError "[Errno 2] No such file or directory: ''"
                end, w).
Proof.
  rewrite convert_gif_to_spritesheet_eq.
  by destruct (Image_open gif_path w).
Qed.

Lemma process_files_empty_output_dir (fuel : nat) (directory : string)
    (filenames : list string) (processed : nat) (w w1 : world) :
  w_files w1 = w_files w → w_dirs w1 = w_dirs w →
  ∃ w',
    process_files fuel directory (Some EmptyString) filenames processed w1
    = Some (Ok processed, w') ∧
    w_files w' = w_files w ∧ w_dirs w' = w_dirs w ∧
    w_stdout w' = w_stdout w1 ++
      map (λ filename,
             report filename
               (Raise match Image_open (os_path_join directory filename) w with
                      | Raise e => e
                      | Ok _ => Exn FileNotFoundError
                                  "[Errno 2] No such file or directory: ''"
                      end))
          (gif_files filenames).
Proof.
  revert w1. induction filenames as [|filename filenames IH]; intros w1 Hfiles Hdirs.
  { exists w1. by rewrite app_nil_r. }
  cbn [process_files]. unfold gif_files. rewrite filter_cons. fold (gif_files filenames).
  destruct (is_gif filename); [|rewrite decide_False by done; by apply IH].
  rewrite decide_True by done.
  unfold mbind at 1, M_bind at 1, try_except, mbind, M_bind.
  rewrite convert_empty_output_dir. cbn [writes mret M_ret].
  rewrite (Image_open_same _ w1 w) by done.
  set (line := "Error processing " +:+ filename +:+ ": " +:+ _).
  destruct (IH (print line w1)) as (w' & -> & ? & ? & Hout); [done..|].
  exists w'. repeat split; [done..|].
  rewrite Hout. cbn [print w_stdout map]. by rewrite <- app_assoc.
Qed.

(** X8.  Given the empty string as output directory, the driver skips its
    own [makedirs] (the empty string is false) but hands the empty string on
    to the builder, where it is not [None]: every [.gif] file fails, with the
    error of [Image.open] or else with the [FileNotFoundError] of
    [os.makedirs('')].  No file or directory changes, the summary counts 0
    files, and the exit status is 0. *)
Theorem empty_output_dir_fails_every_file (fuel : nat) (directory : string)
    (w : world) (filenames : list string) :
  os_path_exists w directory = true →
  os_listdir directory w = Ok filenames →
  ∃ w',
    main fuel directory (Some EmptyString) w = Some (0, w') ∧
    w_files w' = w_files w ∧ w_dirs w' = w_dirs w ∧
    w_stdout w' = w_stdout w ++
      map (λ filename,
             report filename
               (Raise match Image_open (os_path_join directory filename) w with
                      | Raise e => e
                      | Ok _ => Exn FileNotFoundError
                                  "[Errno 2] No such file or directory: ''"
                      end))
          (gif_files filenames)
      ++ ["Processed 0 GIF files"].
Proof.
  intros Hex Hls. unfold main. rewrite process_directory_eq, Hex.
  cbn [ensure_output_dir]. rewrite bool_decide_eq_true_2 by done.
  cbn [mret M_ret]. rewrite Hls.
  destruct (process_files_empty_output_dir fuel directory filenames 0 w w)
    as (w' & -> & Hfiles & Hdirs & Hout); [done..|].
  eexists. split; [done|]. cbn [print w_files w_dirs w_stdout].
  repeat split; [done..|]. by rewrite Hout, <- app_assoc.
Qed.

Lemma empty_output_dir_fails_every_file_witness :
  ∃ w',
    main 6 "sprites" (Some EmptyString) sprites_world = Some (0, w') ∧
    w_files w' = w_files sprites_world.
Proof.
  destruct (empty_output_dir_fails_every_file 6 "sprites" sprites_world
              ["walk.gif"; "IDLE.GIF"; "jump.gif"; "readme.txt"; "broken.gif"])
    as (w' & Hmain & Hfiles & _).
  - reflexivity.
  - vm_compute. reflexivity.
  - exists w'. split; [exact Hmain|exact Hfiles].
Defined.

(** ** File names (lines 21-22, 62 and 89) *)

Section names.

Implicit Types (a b s stem ext : string).

Lemma str_drop_add a b k :
  Str.drop (String.length a + k) (a +:+ b) = Str.drop k b.
Proof. induction a as [|c a IH]; [done|]. by rewrite str_app_cons. Qed.

Lemma str_take_app a b : Str.take (String.length a) (a +:+ b) = a.
Proof.
  induction a as [|c a IH]; [by destruct b|].
  rewrite str_app_cons. simpl. by rewrite IH.
Qed.

Lemma lower_app a b : Str.lower (a +:+ b) = Str.lower a +:+ Str.lower b.
Proof.
  induction a as [|c a IH]; [done|].
  rewrite str_app_cons. simpl. by rewrite IH, str_app_cons.
Qed.

Lemma lower_length s : String.length (Str.lower s) = String.length s.
Proof. induction s as [|c s IH]; [done|]. simpl. by rewrite IH. Qed.

Lemma output_filename_no_slash (gif_path : string) :
  Str.rfind1 "/" (output_filename gif_path) = 0.
Proof.
  unfold output_filename.
  destruct (splitext_spec (os_path_basename gif_path)) as [Hcut _].
  pose proof (basename_no_slash gif_path) as Hb. rewrite Hcut, rfind1_app in Hb.
  rewrite rfind1_app. simpl.
  destruct (Str.rfind1 "/" (snd (os_path_splitext (os_path_basename gif_path))));
    [done|lia].
Qed.

End names.

(** X9.  The name the builder writes is the last component of the path it
    returns, it ends in [_spritesheet.png], and the batch driver does not
    take it for a GIF: a later run over the same directory leaves the
    spritesheets alone. *)
Theorem outputs_are_not_inputs (gif_path : string) (output_dir : option string) :
  os_path_basename (output_path_of gif_path output_dir) = output_filename gif_path ∧
  Str.endswith (output_filename gif_path) "_spritesheet.png" = true ∧
  is_gif (os_path_basename (output_path_of gif_path output_dir)) = false.
Proof.
  assert (os_path_basename (output_path_of gif_path output_dir)
          = output_filename gif_path) as Hbase
    by apply basename_join, output_filename_no_slash.
  split; [done|]. rewrite Hbase. unfold output_filename.
  set (root := fst (os_path_splitext (os_path_basename gif_path))).
  split.
  - unfold Str.endswith. apply bool_decide_eq_true.
    rewrite str_length_app. simpl. split; [lia|].
    replace (String.length root + 16 - 16) with (String.length root + 0) by lia.
    by rewrite str_drop_add.
  - unfold is_gif, Str.endswith. apply bool_decide_eq_false.
    rewrite lower_app, str_length_app, lower_length. simpl.
    replace (String.length root + 16 - 4) with (String.length (Str.lower root) + 12)
      by (rewrite lower_length; lia).
    rewrite str_drop_add. simpl. by intros [_ ?].
Qed.

(** X10.  Whether the driver takes a name for a GIF depends on its last
    four characters only, whatever their case; a name shorter than four
    characters is never taken. *)
Theorem is_gif_ignores_case (stem ext : string) :
  String.length ext = 4 →
  is_gif (stem +:+ ext) = bool_decide (Str.lower ext = ".gif") ∧
  (∀ filename, is_gif filename = true → 4 ≤ String.length filename).
Proof.
  intros Hlen. split.
  - unfold is_gif, Str.endswith.
    rewrite lower_app, str_length_app, !lower_length, Hlen. simpl.
    replace (String.length stem + 4 - 4) with (String.length (Str.lower stem) + 0)
      by (rewrite lower_length; lia).
    rewrite str_drop_add. simpl.
    apply bool_decide_ext. split; [by intros [_ ?]|]. intros ?. split; [lia|done].
  - intros filename [Hle _]%bool_decide_eq_true.
    by rewrite lower_length in Hle.
Qed.

Lemma is_gif_ignores_case_witness :
  is_gif ("sprites/Walk" +:+ ".GiF") = bool_decide (Str.lower ".GiF" = ".gif").
Proof.
  destruct (is_gif_ignores_case "sprites/Walk" ".GiF") as [Heq _].
  - reflexivity.
  - exact Heq.
Defined.

Lemma output_filename_stem (dir stem ext : string) :
  Str.rfind1 "/" stem = 0 →
  Str.rfind1 "/" ext = 0 →
  Str.rfind1 "." ext = 0 →
  Str.all_char "." stem = false →
  Str.rfind1 "/" (stem +:+ "." +:+ ext) = 0 ∧
  output_filename (os_path_join dir (stem +:+ "." +:+ ext))
  = stem +:+ "_spritesheet.png".
Proof.
  intros Hstem Hext Hdot Hnotdots.
  assert (Str.rfind1 "/" ("." +:+ ext) = 0) as Hsl.
  { rewrite rfind1_app, Hext. done. }
  assert (Str.rfind1 "." ("." +:+ ext) = 1) as Hd.
  { rewrite rfind1_app, Hdot. done. }
  assert (Str.rfind1 "/" (stem +:+ "." +:+ ext) = 0) as Hname
    by (by rewrite rfind1_app, Hsl).
  split; [done|].
  unfold output_filename.
  rewrite basename_join by done.
  unfold os_path_splitext.
  rewrite (rfind1_app "/"), Hsl, Hstem, (rfind1_app "."), Hd.
  replace (String.length stem + 1 - 1 - 0) with (String.length stem) by lia.
  replace (String.length stem + 1 - 1) with (String.length stem) by lia.
  cbn [Str.drop]. rewrite str_take_app, Hnotdots.
  rewrite bool_decide_eq_true_2 by lia. done.
Qed.

(** X11.  For a source [dir/stem.ext], where the extension has no dot and
    the stem is not made of dots only, the output name is
    [stem_spritesheet.png]: only the last extension is dropped, and dots
    inside the stem are kept. *)
Theorem output_name_of_ordinary_file (dir stem ext : string) :
  Str.rfind1 "/" stem = 0 →
  Str.rfind1 "/" ext = 0 →
  Str.rfind1 "." ext = 0 →
  Str.all_char "." stem = false →
  output_filename (os_path_join dir (stem +:+ "." +:+ ext))
  = stem +:+ "_spritesheet.png".
Proof. intros. by apply output_filename_stem. Qed.

Lemma output_name_of_ordinary_file_witness :
  output_filename (os_path_join "sprites" ("hero.walk" +:+ "." +:+ "gif"))
  = "hero.walk" +:+ "_spritesheet.png".
Proof.
  apply (output_name_of_ordinary_file "sprites" "hero.walk" "gif"); reflexivity.
Defined.

(** ** The directory of the output (lines 12, 25-28 and 62) *)

Section directories.

Implicit Types (a b s d n p : string) (c : ascii).

Lemma all_char_app c a b :
  Str.all_char c (a +:+ b) = Str.all_char c a && Str.all_char c b.
Proof.
  induction a as [|x a IH]; [done|].
  rewrite str_app_cons. simpl. rewrite IH. by destruct (bool_decide (x = c)).
Qed.

Lemma rstrip_app c a b :
  Str.rstrip c (a +:+ b) =
  match Str.rstrip c b with
  | EmptyString => Str.rstrip c a
  | r => a +:+ r
  end.
Proof.
  induction a as [|x a IH]; [rewrite str_app_nil; by destruct (Str.rstrip c b)|].
  rewrite str_app_cons. simpl. rewrite IH.
  destruct (Str.rstrip c b) as [|y r]; [done|].
  rewrite str_app_cons. by destruct a.
Qed.

Lemma rstrip_all_char c s :
  Str.all_char c (Str.rstrip c s) = true → Str.rstrip c s = EmptyString.
Proof.
  induction s as [|x s IH]; [done|]. simpl.
  destruct (Str.rstrip c s) as [|y r] eqn:Hr.
  - case_decide; [done|]. simpl. by rewrite bool_decide_eq_false_2.
  - simpl. intros [_ Hall]%andb_true_iff. by specialize (IH Hall).
Qed.

Lemma rstrip_idem c s : Str.rstrip c (Str.rstrip c s) = Str.rstrip c s.
Proof.
  induction s as [|x s IH]; [done|]. simpl.
  destruct (Str.rstrip c s) as [|y r] eqn:Hr.
  - case_decide; [done|]. simpl. by rewrite decide_False.
  - cbn [Str.rstrip]. cbn [Str.rstrip] in IH. by rewrite IH.
Qed.

Lemma rstrip_empty_all_char c s :
  Str.rstrip c s = EmptyString → Str.all_char c s = true.
Proof.
  induction s as [|x s IH]; [done|]. simpl.
  destruct (Str.rstrip c s) as [|y r]; [|done].
  case_decide; [|done]. intros _. rewrite bool_decide_eq_true_2 by done. by apply IH.
Qed.

Lemma all_char_endswith c s :
  Str.all_char c s = true → s ≠ EmptyString →
  Str.endswith s (String c EmptyString) = true.
Proof.
  intros Hall Hne. unfold Str.endswith. apply bool_decide_eq_true.
  induction s as [|x s IH]; [done|]. simpl in *.
  apply andb_true_iff in Hall as [->%bool_decide_eq_true Hall].
  split; [lia|]. rewrite Nat.sub_0_r.
  destruct s as [|y s]; [done|].
  destruct IH as [_ IH]; [done..|]. simpl in IH. by rewrite Nat.sub_0_r in IH.
Qed.

(** The directory name the lookups use is stable. *)
Lemma dir_key_idem p : dir_key (dir_key p) = dir_key p.
Proof.
  unfold dir_key. destruct (Str.all_char "/" p) eqn:Hall; [by rewrite Hall|].
  destruct (Str.all_char "/" (Str.rstrip "/" p)) eqn:Hall'; [done|].
  apply rstrip_idem.
Qed.

Lemma dir_key_nonempty p : p ≠ EmptyString → dir_key p ≠ EmptyString.
Proof.
  intros Hne. unfold dir_key. destruct (Str.all_char "/" p) eqn:Hall; [done|].
  intros Hr%rstrip_empty_all_char. congruence.
Qed.

Lemma dirname_is_dir_key p : dir_key (os_path_dirname p) = os_path_dirname p.
Proof.
  unfold os_path_dirname.
  set (head := Str.take (Str.rfind1 "/" p) p).
  destruct (negb (bool_decide (head = EmptyString)) && negb (Str.all_char "/" head))
    eqn:Hcase.
  - unfold dir_key.
    destruct (Str.all_char "/" (Str.rstrip "/" head)); [done|apply rstrip_idem].
  - unfold dir_key. destruct (Str.all_char "/" head) eqn:Hall; [done|].
    simpl in Hcase. rewrite andb_true_r in Hcase.
    apply negb_false_iff, bool_decide_eq_true in Hcase. by rewrite Hcase.
Qed.

(** The directory part of [join(d, n)], for a name [n] without slash, is
    the directory [d] names. *)
Lemma dirname_join d n :
  d ≠ EmptyString → Str.rfind1 "/" n = 0 →
  os_path_dirname (os_path_join d n) = dir_key d.
Proof.
  intros Hd Hn. unfold os_path_join.
  assert (Str.startswith n "/" = false) as ->.
  { unfold Str.startswith. apply bool_decide_eq_false. intros Hpre.
    destruct n as [|x n]; [done|]. simpl in Hpre.
    injection Hpre as Hx. subst x. simpl in Hn. by destruct (Str.rfind1 "/" n). }
  rewrite bool_decide_eq_false_2 by done. cbn [orb].
  unfold os_path_dirname, dir_key.
  destruct (Str.endswith d "/") eqn:Hend.
  - rewrite rfind1_app, Hn.
    destruct (endswith_split _ _ Hend) as [pre ->].
    rewrite (rfind1_app _ pre). simpl.
    replace (String.length pre + 1) with (String.length (pre +:+ "/"))
      by (by rewrite str_length_app).
    rewrite str_take_app. rewrite bool_decide_eq_false_2 by done. simpl.
    by destruct (Str.all_char "/" (pre +:+ "/")).
  - assert (Str.all_char "/" d = false) as Hall.
    { destruct (Str.all_char "/" d) eqn:Hall; [|done].
      by rewrite all_char_endswith in Hend. }
    rewrite Hall, rfind1_app, (rfind1_app _ "/" n), Hn. simpl.
    replace (String.length d + 1) with (String.length (d +:+ "/"))
      by (by rewrite str_length_app).
    rewrite <- str_app_assoc, str_take_app.
    rewrite all_char_app, Hall. simpl.
    rewrite bool_decide_eq_false_2 by (by destruct d).
    simpl. by rewrite rstrip_app.
Qed.

End directories.

(** X12.  With no output directory given and a source path that has a
    directory part, the path the builder writes to is in the directory of
    the source, as the docstring says, under the name
    [{stem}_spritesheet.png]. *)
Theorem output_is_next_to_source (gif_path : string) :
  os_path_dirname gif_path ≠ EmptyString →
  os_path_dirname (output_path_of gif_path None) = os_path_dirname gif_path ∧
  os_path_basename (output_path_of gif_path None) = output_filename gif_path.
Proof.
  intros Hdir. split.
  - unfold output_path_of, resolve_output_dir.
    rewrite dirname_join by (done || apply output_filename_no_slash).
    apply dirname_is_dir_key.
  - apply basename_join, output_filename_no_slash.
Qed.

Lemma output_is_next_to_source_witness :
  os_path_dirname (output_path_of "assets/sprites/walk.gif" None) = "assets/sprites".
Proof.
  destruct (output_is_next_to_source "assets/sprites/walk.gif") as [Hdir _].
  - vm_compute. discriminate.
  - rewrite Hdir. reflexivity.
Defined.

(** ** The batch without an output directory (lines 25-28 and 88-92) *)

Section batch_in_place.

Implicit Types (w : world) (directory filename : string).

Lemma is_dir_nonempty w directory : is_dir w directory = true → directory ≠ EmptyString.
Proof.
  unfold is_dir. intros [Hne _]%andb_true_iff.
  by apply negb_true_iff, bool_decide_eq_false in Hne.
Qed.

Lemma is_dir_dir_key w directory :
  is_dir w directory = true → is_dir w (dir_key directory) = true.
Proof.
  intros Hdir. pose proof (is_dir_nonempty _ _ Hdir) as Hne.
  unfold is_dir in *. apply andb_true_iff in Hdir as [_ Hin].
  rewrite dir_key_idem, Hin, andb_true_r.
  apply negb_true_iff, bool_decide_eq_false. by apply dir_key_nonempty.
Qed.

(** The names [os.listdir] gives have no slash. *)
Lemma os_listdir_names w directory filenames :
  os_listdir directory w = Ok filenames →
  is_dir w directory = true ∧
  Forall (λ filename, Str.rfind1 "/" filename = 0) filenames.
Proof.
  unfold os_listdir. destruct (is_dir w directory); [|by destruct (is_file w _)].
  intros [= <-]. split; [done|]. apply Forall_forall. intros filename Hin.
  apply elem_of_elements, elem_of_map in Hin as (q & -> & _).
  apply basename_no_slash.
Qed.

(** For a file of a listed directory the builder finds its output directory
    in place: it creates none. *)
Lemma convert_in_place_dirs fuel w directory filename o w' :
  is_dir w directory = true → Str.rfind1 "/" filename = 0 →
  convert_gif_to_spritesheet fuel (os_path_join directory filename) None w
  = Some (o, w') →
  w_dirs w' = w_dirs w.
Proof.
  intros Hdir Hname. rewrite convert_gif_to_spritesheet_eq.
  destruct (Image_open _ w) as [gif|e]; [|by intros [= _ <-]]. cbv zeta.
  unfold resolve_output_dir.
  rewrite dirname_join by (done || by eapply is_dir_nonempty).
  unfold os_path_exists. rewrite is_dir_dir_key by done. cbn [orb].
  destruct (build_spritesheet fuel gif) as [[sheet|e]|]; [|by intros [= _ <-]|done].
  destruct (Image_save sheet _ w) as [[[]|e] wb] eqn:Hsave.
  - apply Image_save_Ok in Hsave as ->. by intros [= _ <-].
  - apply Image_save_Raise in Hsave as ->. by intros [= _ <-].
Qed.

Lemma process_files_in_place_dirs fuel directory filenames processed w r w' :
  is_dir w directory = true →
  Forall (λ filename, Str.rfind1 "/" filename = 0) filenames →
  process_files fuel directory None filenames processed w = Some (r, w') →
  w_dirs w' = w_dirs w.
Proof.
  revert processed w.
  induction filenames as [|filename filenames IH]; intros processed w Hdir Hnames.
  { by intros [= _ <-]. }
  apply Forall_cons in Hnames as [Hname Hnames]. cbn [process_files].
  destruct (is_gif filename); [|by apply IH].
  unfold mbind at 1, M_bind at 1, try_except, mbind, M_bind.
  destruct (convert_gif_to_spritesheet fuel _ None w) as [[[out|e] w1]|] eqn:Hrun;
    [| |done].
  - pose proof (convert_in_place_dirs _ _ _ _ _ _ Hdir Hname Hrun) as Hdirs.
    cbn [mret M_ret]. intros Hrest. apply IH in Hrest; [congruence| |done].
    unfold is_dir in *. by rewrite Hdirs.
  - pose proof (convert_in_place_dirs _ _ _ _ _ _ Hdir Hname Hrun) as Hdirs.
    cbn [writes mret M_ret]. intros Hrest. apply IH in Hrest; [|  |done].
    + simpl in Hrest. congruence.
    + unfold is_dir in *. simpl. by rewrite Hdirs.
Qed.

End batch_in_place.

(** X13.  Run without an output directory, the batch driver creates no
    directory, whatever happens to the files: every spritesheet goes into
    the input directory, which is there. *)
Theorem batch_in_place_creates_no_directory (fuel : nat) (directory : string)
    (w w' : world) (o : outcome unit) :
  process_directory fuel directory None w = Some (o, w') →
  w_dirs w' = w_dirs w.
Proof.
  rewrite process_directory_eq.
  destruct (os_path_exists w directory); [|by intros [= _ <-]].
  cbn [ensure_output_dir mret M_ret].
  destruct (os_listdir directory w) as [filenames|e] eqn:Hls; [|by intros [= _ <-]].
  apply os_listdir_names in Hls as [Hdir Hnames].
  destruct (process_files fuel directory None filenames 0 w)
    as [[[processed|e] w1]|] eqn:Hrun; [| |done].
  - intros [= _ <-]. simpl. by eapply process_files_in_place_dirs.
  - intros [= _ <-]. by eapply process_files_in_place_dirs.
Qed.

Lemma batch_in_place_creates_no_directory_witness :
  ∃ w', process_directory 6 "sprites" None sprites_world = Some (Ok (), w') ∧
        w_dirs w' = w_dirs sprites_world.
Proof.
  eexists. split; [vm_compute; reflexivity|].
  eapply (batch_in_place_creates_no_directory 6 "sprites" sprites_world _ (Ok ())).
  vm_compute. reflexivity.
Defined.



(** ** An explicit output directory (lines 25-28 and 62-66) *)

(** X15.  When the builder returns with an output directory given, that
    directory exists afterwards, created if it was missing, and the returned
    path is the output name joined to it: its directory part is the output
    directory and it holds a file. *)
Theorem output_goes_to_output_dir (fuel : nat) (gif_path d out : string)
    (w w' : world) :
  d ≠ EmptyString →
  convert_gif_to_spritesheet fuel gif_path (Some d) w = Some (Ok out, w') →
  out = os_path_join d (output_filename gif_path) ∧
  os_path_dirname out = dir_key d ∧
  os_path_exists w' d = true ∧
  (os_path_exists w d = false → is_dir w' d = true) ∧
  is_Some (w_files w' !! out).
Proof.
  intros Hd. rewrite convert_gif_to_spritesheet_eq.
  destruct (Image_open gif_path w) as [gif|e]; [|done]. cbv zeta.
  unfold output_path_of, resolve_output_dir.
  destruct (if os_path_exists w d then (Ok (), w) else os_makedirs d w)
    as [[[]|e] wa] eqn:Hdir; [|done].
  destruct (build_spritesheet fuel gif) as [[sheet|e]|]; try done.
  destruct (Image_save sheet _ wa) as [[[]|e] wb] eqn:Hsave; [|done].
  apply Image_save_Ok in Hsave as ->. intros [= <- <-].
  split; [done|]. split; [apply dirname_join; [done|apply output_filename_no_slash]|].
  assert (os_path_exists wa d = true ∧
          (os_path_exists w d = false → is_dir wa d = true)) as [Hex Hnew].
  { destruct (os_path_exists w d) eqn:Hexw.
    - injection Hdir as <-. by rewrite Hexw.
    - apply os_makedirs_Ok in Hdir as (_ & Hisdir & _).
      unfold os_path_exists. by rewrite Hisdir. }
  split; [|split; [done|by simpl; rewrite lookup_insert_eq]].
  apply (os_path_exists_mono wa); [done| |done].
  intros q Hq. simpl.
  destruct (decide (os_path_join d (output_filename gif_path) = q)) as [->|?].
  - by rewrite lookup_insert_eq.
  - by rewrite lookup_insert_ne.
Qed.

Lemma output_goes_to_output_dir_witness :
  ∃ w',
    convert_gif_to_spritesheet 3 "sprites/jump.gif" (Some "out/sheets") sprites_world
    = Some (Ok "out/sheets/jump_spritesheet.png", w') ∧
    is_dir w' "out/sheets" = true.
Proof.
  eexists. split; [vm_compute; reflexivity|].
  eapply (output_goes_to_output_dir 3 "sprites/jump.gif" "out/sheets"
            "out/sheets/jump_spritesheet.png" sprites_world).
  - discriminate.
  - vm_compute. reflexivity.
  - reflexivity.
Defined.

(** ** Two sources, one output (lines 21-22 and 62) *)

(** X16.  The extension of the source does not enter the output path: two
    files of one directory whose names differ in the extension only, such as
    [walk.gif] and [walk.GIF], are written to the same spritesheet path, so
    the later one overwrites the earlier one. *)
Theorem same_stem_same_output (dir stem ext1 ext2 : string)
    (output_dir : option string) :
  Str.rfind1 "/" stem = 0 →
  Str.all_char "." stem = false →
  Str.rfind1 "/" ext1 = 0 → Str.rfind1 "." ext1 = 0 →
  Str.rfind1 "/" ext2 = 0 → Str.rfind1 "." ext2 = 0 →
  output_path_of (os_path_join dir (stem +:+ "." +:+ ext1)) output_dir
  = output_path_of (os_path_join dir (stem +:+ "." +:+ ext2)) output_dir.
Proof.
  intros Hstem Hnotdots Hs1 Hd1 Hs2 Hd2.
  destruct (output_filename_stem dir stem ext1) as [Hn1 Ho1]; [done..|].
  destruct (output_filename_stem dir stem ext2) as [Hn2 Ho2]; [done..|].
  unfold output_path_of. rewrite Ho1, Ho2. f_equal.
  destruct output_dir as [d|]; [done|]. unfold resolve_output_dir.
  destruct (decide (dir = EmptyString)) as [->|Hdir].
  - unfold os_path_join.
    assert (∀ n, Str.rfind1 "/" n = 0 →
                 os_path_dirname (if Str.startswith n "/" then n
                                  else EmptyString +:+ n) = EmptyString) as Hbare.
    { intros n Hn. destruct (Str.startswith n "/"); by apply dirname_bare. }
    cbn [bool_decide decide_rel orb]. simpl. by rewrite !Hbare.
  - by rewrite !dirname_join.
Qed.

Lemma same_stem_same_output_witness :
  output_path_of (os_path_join "sprites" ("walk" +:+ "." +:+ "gif")) None
  = output_path_of (os_path_join "sprites" ("walk" +:+ "." +:+ "GIF")) None.
Proof.
  apply (same_stem_same_output "sprites" "walk" "gif" "GIF" None); reflexivity.
Defined.
